(** * SEO Writer (app.py): a shallow embedding and its checked properties

    The Streamlit script [app.py] collects form fields, renders two prompts,
    calls a chat-completion endpoint once or twice, trims the answer to a
    character window and appends a row to a spreadsheet.

    Python values are modelled as follows:
    - [str] is a list of Unicode code points ([N]), so that [len] counts
      code points exactly as Python does;
    - [int] is [Z];
    - [st.secrets] and [os.environ] are finite maps with string keys;
    - the external services (completion endpoint, spreadsheet, clock) are
      oracles collected in a record, and every effect of the script
      (network operation, message shown to the user) is appended to a trace. *)

From Stdlib Require Import ZArith NArith QArith Qround List String Ascii DecimalString Lia Bool.
From stdpp Require Import base option list strings gmap.

Local Open Scope Z_scope.

(** ** Python strings *)

Module PyStr.

(** A character is a Unicode code point. *)
Definition char : Type := N.
Abbreviation pystr := (list N).

(** [len(s)] *)
Definition len (s : pystr) : Z := Z.of_nat (length s).

(** Decoding of the UTF-8 bytes of a source literal into code points. *)
Fixpoint utf8_decode (bs : list N) : pystr :=
  match bs with
  | [] => []
  | b0 :: r0 =>
    if (b0 <? 128)%N then b0 :: utf8_decode r0
    else match r0 with
    | [] => [b0]
    | b1 :: r1 =>
      if (b0 <? 224)%N
      then ((b0 - 192) * 64 + (b1 - 128))%N :: utf8_decode r1
      else match r1 with
      | [] => [b0; b1]
      | b2 :: r2 =>
        if (b0 <? 240)%N
        then ((b0 - 224) * 4096 + (b1 - 128) * 64 + (b2 - 128))%N
               :: utf8_decode r2
        else match r2 with
        | [] => [b0; b1; b2]
        | b3 :: r3 =>
          ((b0 - 240) * 262144 + (b1 - 128) * 4096
           + (b2 - 128) * 64 + (b3 - 128))%N :: utf8_decode r3
        end
      end
    end
  end.

(** A string literal of the source. *)
Definition lit (s : string) : pystr :=
  utf8_decode (map N_of_ascii (list_ascii_of_string s)).

Definition LF : char := 10%N.
Definition QUOTE : char := 34%N.

(** [str.isspace] on one character (CPython's [_PyUnicode_IsWhitespace]). *)
Definition py_isspace (c : char) : bool :=
  ((9 <=? c) && (c <=? 13) || (28 <=? c) && (c <=? 32)
   || (c =? 133) || (c =? 160) || (c =? 5760)
   || (8192 <=? c) && (c <=? 8202)
   || (c =? 8232) || (c =? 8233) || (c =? 8239) || (c =? 8287)
   || (c =? 12288))%N.

(** [s.lstrip()], [s.rstrip()], [s.strip()] *)
Fixpoint lstrip (s : pystr) : pystr :=
  match s with
  | c :: s' => if py_isspace c then lstrip s' else s
  | [] => []
  end.

Definition rstrip (s : pystr) : pystr := rev (lstrip (rev s)).

Definition strip (s : pystr) : pystr := rstrip (lstrip s).

(** Truth value of a string: [bool(s)]. *)
Definition truthy (s : pystr) : bool :=
  match s with [] => false | _ => true end.

(** [a or b] on strings. *)
Definition str_or (a b : pystr) : pystr := if truthy a then a else b.

(** [s[:n]] with Python's treatment of a negative bound. *)
Definition slice_to (s : pystr) (n : Z) : pystr :=
  if 0 <=? n then take (Z.to_nat n) s
  else take (Z.to_nat (len s + n)) s.

(** [s[n:]] for a non-negative bound. *)
Definition slice_from (s : pystr) (n : nat) : pystr := drop n s.

Fixpoint starts_with (p s : pystr) : bool :=
  match p, s with
  | [], _ => true
  | a :: p', b :: s' => (a =? b)%N && starts_with p' s'
  | _ :: _, [] => false
  end.

(** [s.replace(old, new)] for a non-empty [old]: occurrences are found left
    to right and do not overlap.  [skip] counts the characters of a matched
    occurrence still to be dropped. *)
Fixpoint replace_go (old new : pystr) (skip : nat) (s : pystr) : pystr :=
  match s with
  | [] => []
  | c :: s' =>
    match skip with
    | S k => replace_go old new k s'
    | O =>
      if starts_with old s
      then new ++ replace_go old new (length old - 1) s'
      else c :: replace_go old new 0 s'
    end
  end.

Definition replace (old new s : pystr) : pystr := replace_go old new 0 s.

(** [c in s] *)
Definition contains_char (c : char) (s : pystr) : bool :=
  existsb (N.eqb c) s.

(** [s.find(c)] as an option. *)
Fixpoint find_char (c : char) (s : pystr) : option nat :=
  match s with
  | [] => None
  | d :: s' => if (c =? d)%N then Some O else S <$> find_char c s'
  end.

(** [str(n)] for an integer. *)
Definition str_of_int (n : Z) : pystr :=
  lit (NilZero.string_of_int (Z.to_int n)).

End PyStr.
Import PyStr.

(** ** The fragment of Python's [re] used by the script

    A backtracking matcher in continuation-passing style.  Repetition is
    greedy and is only needed over one-character sets, which is all the
    pattern of [enforce_length] uses.  The matcher carries the capture of
    group 1. *)

Module Re.

Inductive regex : Type :=
| Set_ (p : char -> bool)            (* one character out of a set *)
| Star (p : char -> bool)            (* [p*], greedy *)
| Plus (p : char -> bool)            (* [p+], greedy *)
| Cat (r1 r2 : regex)                (* concatenation *)
| Group (r : regex)                  (* the capturing group *)
| Eos.                               (* [$] without re.M *)

(** [$]: at the end of the string, or just before a newline that is the
    last character. *)
Definition at_eos (rest : pystr) : bool :=
  match rest with
  | [] => true
  | [c] => (c =? LF)%N
  | _ => false
  end.

(** Greedy repetition: consume while possible, give characters back one at
    a time when the continuation fails. *)
Fixpoint star_greedy {A} (p : char -> bool) (s : pystr)
    (k : pystr -> option A) : option A :=
  match s with
  | c :: s' =>
    if p c
    then match star_greedy p s' k with
         | Some r => Some r
         | None => k s
         end
    else k s
  | [] => k s
  end.

(** [rmatch r s g k]: match [r] at the head of [s]; [g] is the current
    capture of the group; [k] receives the rest of the input. *)
Fixpoint rmatch {A} (r : regex) (s : pystr) (g : option pystr)
    (k : pystr -> option pystr -> option A) : option A :=
  match r with
  | Set_ p =>
    match s with
    | c :: s' => if p c then k s' g else None
    | [] => None
    end
  | Star p => star_greedy p s (fun s' => k s' g)
  | Plus p =>
    match s with
    | c :: s' => if p c then star_greedy p s' (fun s'' => k s'' g) else None
    | [] => None
    end
  | Cat r1 r2 => rmatch r1 s g (fun s' g' => rmatch r2 s' g' k)
  | Group r0 =>
    rmatch r0 s g
      (fun s' _ => k s' (Some (take (length s - length s') s)))
  | Eos => if at_eos s then k s g else None
  end.

(** [re.match]: a match anchored at the head of [s]; the result is the
    capture of the group ([None] inside [Some] if the group did not take
    part). *)
Definition match_here (r : regex) (s : pystr) : option (option pystr) :=
  rmatch r s None (fun _ g => Some g).

(** [re.search]: the leftmost start position that matches. *)
Fixpoint search (r : regex) (s : pystr) : option (option pystr) :=
  match match_here r s with
  | Some g => Some g
  | None =>
    match s with
    | [] => None
    | _ :: s' => search r s'
    end
  end.

End Re.

(** ** [urllib.parse.urlparse(url).netloc]

    The function is the standard library's, not the repository's; it is
    modelled after CPython 3.12 ([urlsplit] and [_splitnetloc]; [urlparse]
    adds only the split of [;params], which leaves the network location
    alone).  Two checks of the library reach into other modules and are kept
    as parameters: the NFKC normalisation of [_checknetloc], consulted only
    for a network location with a non-ASCII character, and
    [_check_bracketed_host], consulted only for a bracketed host.  [None]
    stands for the [ValueError] the library raises. *)

Module Urllib.

Definition is_ascii_alpha (c : char) : bool :=
  ((65 <=? c) && (c <=? 90) || (97 <=? c) && (c <=? 122))%N.

Definition is_ascii_digit (c : char) : bool :=
  ((48 <=? c) && (c <=? 57))%N.

(** [scheme_chars]: letters, digits and [+-.] *)
Definition is_scheme_char (c : char) : bool :=
  (is_ascii_alpha c || is_ascii_digit c
   || (c =? 43) || (c =? 45) || (c =? 46))%N.

(** [_WHATWG_C0_CONTROL_OR_SPACE] *)
Definition is_c0_or_space (c : char) : bool := (c <=? 32)%N.

(** [_UNSAFE_URL_BYTES_TO_REMOVE]: tab, CR, LF *)
Definition is_unsafe_byte (c : char) : bool :=
  ((c =? 9) || (c =? 13) || (c =? 10))%N.

Definition is_netloc_delim (c : char) : bool :=
  ((c =? 47) || (c =? 63) || (c =? 35))%N.      (* / ? # *)

Fixpoint lstrip_c0 (s : pystr) : pystr :=
  match s with
  | c :: s' => if is_c0_or_space c then lstrip_c0 s' else s
  | [] => []
  end.

(** The text after [scheme:] when the URL starts with a scheme. *)
Definition drop_scheme (url : pystr) : pystr :=
  match find_char 58%N url with                    (* url.find(':') *)
  | Some (S i) =>
    match url with
    | c0 :: _ =>
      if is_ascii_alpha c0 && forallb is_scheme_char (take (S i) url)
      then drop (S (S i)) url
      else url
    | [] => url
    end
  | _ => url
  end.

(** [_splitnetloc(url, 2)[0]]: up to the first of [/ ? #]. *)
Fixpoint take_netloc (s : pystr) : pystr :=
  match s with
  | c :: s' => if is_netloc_delim c then [] else c :: take_netloc s'
  | [] => []
  end.

(** [netloc.partition('[')[2].partition(']')[0]] *)
Fixpoint until_char (c : char) (s : pystr) : pystr :=
  match s with
  | d :: s' => if (c =? d)%N then [] else d :: until_char c s'
  | [] => []
  end.

Fixpoint after_char (c : char) (s : pystr) : pystr :=
  match s with
  | d :: s' => if (c =? d)%N then s' else after_char c s'
  | [] => []
  end.

Definition is_ascii_str (s : pystr) : bool :=
  forallb (fun c => (c <? 128)%N) s.

Section Urlsplit.

(** [unicodedata.normalize('NFKC', _)] *)
Variable nfkc : pystr -> pystr.
(** [true] when [_check_bracketed_host] returns without raising. *)
Variable bracketed_host_ok : pystr -> bool.

(** [_checknetloc]: [true] when it returns without raising. *)
Definition checknetloc (netloc : pystr) : bool :=
  if negb (truthy netloc) || is_ascii_str netloc then true
  else
    let n := filter (fun c => negb ((c =? 64) || (c =? 58)
                                    || (c =? 35) || (c =? 63))%N) netloc in
    let netloc2 := nfkc n in
    if decide (n = netloc2) then true
    else negb (existsb (fun c => contains_char c netloc2)
                 [47; 63; 35; 64; 58]%N).

Definition urlparse_netloc (url0 : pystr) : option pystr :=
  let url := lstrip_c0 url0 in
  let url := filter (fun c => negb (is_unsafe_byte c)) url in
  let url := drop_scheme url in
  if starts_with [47; 47]%N url then
    let netloc := take_netloc (drop 2 url) in
    let lb := contains_char 91%N netloc in
    let rb := contains_char 93%N netloc in
    if (lb && negb rb) || (rb && negb lb) then None
    else if lb && rb
            && negb (bracketed_host_ok
                       (until_char 93%N (after_char 91%N netloc)))
    then None
    else if checknetloc netloc then Some netloc else None
  else Some [].

End Urlsplit.

End Urllib.

(** ** The script *)

Module App.

(** *** Values of [st.secrets]: strings, booleans, tables; [VNone] is the
    default of [st.secrets.get(key)]. *)
Inductive pyval : Type :=
| VNone
| VStr (s : pystr)
| VBool (b : bool)
| VTable (t : list (string * pystr)).

Definition val_truthy (v : pyval) : bool :=
  match v with
  | VNone => false
  | VStr s => truthy s
  | VBool b => b
  | VTable t => match t with [] => false | _ => true end
  end.

(** [a or b] *)
Definition val_or (a b : pyval) : pyval := if val_truthy a then a else b.

(** Exceptions (instances of [Exception]). *)
Inductive exn : Type :=
| KeyError (key : string)            (* [st.secrets[key]] on a missing key *)
| LibraryError (msg : pystr).        (* raised by openai, gspread, google.oauth2, zoneinfo *)

(** *** The form *)

Inductive provider_t := OpenAI.
Inductive lang_choice_t := ChoiceItaliano | ChoiceEnglish.
Inductive language_t := Italiano | English.
Inductive content_type_t := Listing | SchedaProdotto.
Inductive tone_t :=
  Professionale | Conversazionale | Autorevole | Persuasivo | Neutro.

Definition language_str (l : language_t) : pystr :=
  match l with Italiano => lit "Italiano" | English => lit "English" end.

Definition content_type_str (c : content_type_t) : pystr :=
  match c with
  | Listing => lit "Listing"
  | SchedaProdotto => lit "Scheda prodotto"
  end.

Definition tone_str (t : tone_t) : pystr :=
  match t with
  | Professionale => lit "professionale"
  | Conversazionale => lit "conversazionale"
  | Autorevole => lit "autorevole"
  | Persuasivo => lit "persuasivo"
  | Neutro => lit "neutro"
  end.

(** What the widgets return in one execution of the script. *)
Record form : Type := {
  provider : provider_t;
  temperature : Q;
  lang_choice : lang_choice_t;
  tone : tone_t;
  brand_voice : pystr;
  target_min : Z;
  target_max : Z;
  keyword : pystr;
  url : pystr;
  content_type : content_type_t;
  intro_text : pystr;
  bullets : pystr;
  extra_guidelines : pystr;
  start : bool
}.

(** The two [st.number_input] widgets keep their value in [100, 5000]. *)
Definition form_accepts (f : form) : Prop :=
  100 <= target_min f <= 5000 /\ 100 <= target_max f <= 5000.

(** *** Effects *)

Record llm_call : Type := {
  call_model : pyval;
  call_system : pystr;
  call_user : pystr;
  call_temperature : Q;
  call_max_tokens : Z
}.

(** [row = [n, d, t, keyword, url, ctype, language, chars, model]] *)
Record sheet_row : Type := {
  row_n : Z;
  row_d : pystr;
  row_t : pystr;
  row_keyword : pystr;
  row_url : pystr;
  row_ctype : pystr;
  row_language : pystr;
  row_chars : Z;
  row_model : pyval
}.

(** Operations on remote services, in the order they are issued. *)
Inductive net_event : Type :=
| NetCompletion (c : llm_call)       (* client.chat.completions.create *)
| NetCredentials (sa : pyval)        (* Credentials.from_service_account_info *)
| NetAuthorize                       (* gspread.authorize *)
| NetOpenByKey (sheet_id : pyval)    (* gc.open_by_key *)
| NetWorksheet (name : pyval)        (* sh.worksheet *)
| NetGetAllValues                    (* ws.get_all_values *)
| NetAppendRow (r : sheet_row).      (* ws.append_row *)

(** What the page shows.  For [components.html] only the text interpolated
    into the widget's textarea is kept; the markup around it is constant. *)
Inductive ui_event : Type :=
| StWarning (m : pystr)
| StError (m : pystr)
| StInfo (m : pystr)
| StSuccess (m : pystr)
| ComponentsHtml (escaped : pystr)
| StDivider
| StMarkdown (m : pystr).

Record trace : Type := { net : list net_event; ui : list ui_event }.

Definition empty_trace : trace := {| net := []; ui := [] |}.

(** What lies outside the script. *)
Record world : Type := {
  secrets : gmap string pyval;                       (* st.secrets *)
  environ : gmap string pystr;                       (* os.environ *)
  str_of_exn : exn -> pystr;                         (* str(e) *)
  nfkc : pystr -> pystr;                             (* unicodedata *)
  bracketed_host_ok : pystr -> bool;                 (* urllib *)
  openai_client : pyval -> option exn;               (* import and OpenAI(api_key=key) *)
  (* the content of the first choice, given the calls made so far *)
  completion : list net_event -> llm_call -> exn + option pystr;
  sa_credentials : pyval -> option exn;
  gs_authorize : option exn;
  gs_open_by_key : pyval -> option exn;
  gs_worksheet : pyval -> option exn;
  (* ZoneInfo(tzname), datetime.now and the two strftime *)
  zone_now : pyval -> exn + (pystr * pystr);
  gs_get_all_values : exn + Z;                       (* len(ws.get_all_values()) *)
  gs_append_row : sheet_row -> option exn
}.

(** How a computation ends: with a value, with an exception, or with the
    [StopException] of [st.stop()], which is not an [Exception]. *)
Inductive outcome (A : Type) : Type :=
| Ret (a : A)
| Raise (e : exn)
| Stop.
Arguments Ret {A} a.
Arguments Raise {A} e.
Arguments Stop {A}.

Definition M (A : Type) : Type := trace -> outcome A * trace.

Definition ret {A} (a : A) : M A := fun tr => (Ret a, tr).

Definition bind {A B} (m : M A) (k : A -> M B) : M B :=
  fun tr =>
    match m tr with
    | (Ret a, tr') => k a tr'
    | (Raise e, tr') => (Raise e, tr')
    | (Stop, tr') => (Stop, tr')
    end.

Declare Scope py_scope.
Delimit Scope py_scope with py.
Notation "x <- m ;; k" := (bind m (fun x => k))
  (at level 100, m at next level, right associativity) : py_scope.
Notation "m ;;; k" := (bind m (fun _ => k))
  (at level 100, right associativity) : py_scope.
Local Open Scope py_scope.

(** [try: m except Exception as e: h e] *)
Definition try_except {A} (m : M A) (h : exn -> M A) : M A :=
  fun tr =>
    match m tr with
    | (Raise e, tr') => h e tr'
    | r => r
    end.

Definition raise {A} (e : exn) : M A := fun tr => (Raise e, tr).
Definition st_stop {A} : M A := fun tr => (Stop, tr).

Definition show (e : ui_event) : M unit :=
  fun tr => (Ret tt, {| net := net tr; ui := ui tr ++ [e] |}).

Definition issue (e : net_event) : M unit :=
  fun tr => (Ret tt, {| net := net tr ++ [e]; ui := ui tr |}).

Definition issued : M (list net_event) := fun tr => (Ret (net tr), tr).

(** An operation that may raise. *)
Definition of_result {A} (r : exn + A) : M A :=
  match r with inl e => raise e | inr a => ret a end.

Definition of_status (r : option exn) : M unit :=
  match r with Some e => raise e | None => ret tt end.

(** *** Helper *)

Definition WWW : pystr := lit "www.".

(** Characters that end a sentence: the class [[\.!?]]. *)
Definition is_terminator (c : char) : bool :=
  ((c =? 46) || (c =? 33) || (c =? 63))%N.

(** The pattern [(.+[\.!?])[^\.!?]*$] compiled with [re.S]. *)
Definition SENTENCE_RE : Re.regex :=
  Re.Cat (Re.Group (Re.Cat (Re.Plus (fun _ => true)) (Re.Set_ is_terminator)))
         (Re.Cat (Re.Star (fun c => negb (is_terminator c))) Re.Eos).

Definition char_count (text : pystr) : Z := len text.

Definition enforce_length (text : pystr) (min_c max_c : Z) : pystr :=
  if len text <=? max_c then text
  else
    let trimmed := slice_to text max_c in
    match Re.search SENTENCE_RE trimmed with
    | Some (Some g) => g                              (* m.group(1) *)
    | _ => trimmed
    end.

(** [html.escape(s)] *)
Definition html_escape (s : pystr) : pystr :=
  flat_map (fun c =>
    if (c =? 38)%N then lit "&amp;"
    else if (c =? 60)%N then lit "&lt;"
    else if (c =? 62)%N then lit "&gt;"
    else if (c =? 34)%N then lit "&quot;"
    else if (c =? 39)%N then lit "&#x27;"
    else [c]) s.

(** [int(x)] on a float: truncation toward zero. *)
Definition py_int (q : Q) : Z := Z.quot (Qnum q) (Zpos (Qden q)).

(** [target_chars = int((target_min + target_max) / 2)].  The division is
    Python's true division; on the sums the form can deliver it is exact in
    double precision, so the quotient is taken in [Q]. *)
Definition target_chars_of (target_min target_max : Z) : Z :=
  py_int (inject_Z (target_min + target_max) / inject_Z 2).


Section Script.

Variable w : world.

Definition st_warning (m : pystr) : M unit := show (StWarning m).
Definition st_error (m : pystr) : M unit := show (StError m).
Definition st_info (m : pystr) : M unit := show (StInfo m).
Definition st_success (m : pystr) : M unit := show (StSuccess m).

(** [st.secrets.get(key, default)] and [st.secrets[key]] *)
Definition secrets_get (key : string) (dflt : pyval) : pyval :=
  default dflt (secrets w !! key).

Definition secrets_item (key : string) : M pyval :=
  match secrets w !! key with
  | Some v => ret v
  | None => raise (KeyError key)
  end.

(** [os.getenv(key, default)] *)
Definition getenv (key : string) (dflt : pystr) : pystr :=
  default dflt (environ w !! key).

Definition MODEL_DEFAULT : pyval :=
  secrets_get "OPENAI_MODEL" (VStr (lit "gpt-4o-mini")).

Definition clean_domain (url : pystr) : pystr :=
  match Urllib.urlparse_netloc (nfkc w) (bracketed_host_ok w) url with
  | Some netloc => if truthy netloc then replace WWW [] netloc else []
  | None => []
  end.

(** The body of the [try] of [log_to_sheet]. *)
Definition log_to_sheet_body (keyword url ctype language : pystr)
    (chars : Z) (model : pyval) : M unit :=
  sheet_id <- secrets_item "LOG_SHEET_ID" ;;
  let sheet_name := secrets_get "LOG_SHEET_NAME" (VStr (lit "logs")) in
  let tzname := secrets_get "TIMEZONE" (VStr (lit "Europe/Rome")) in
  let sa_info := secrets_get "gcp_service_account" VNone in
  if negb (val_truthy sa_info) then ret tt
  else
    issue (NetCredentials sa_info) ;;;
    of_status (sa_credentials w sa_info) ;;;
    issue NetAuthorize ;;;
    of_status (gs_authorize w) ;;;
    issue (NetOpenByKey sheet_id) ;;;
    of_status (gs_open_by_key w sheet_id) ;;;
    issue (NetWorksheet sheet_name) ;;;
    of_status (gs_worksheet w sheet_name) ;;;
    now <- of_result (zone_now w tzname) ;;
    let d := fst now in
    let t := snd now in
    issue NetGetAllValues ;;;
    n <- of_result (gs_get_all_values w) ;;
    let row := {| row_n := n; row_d := d; row_t := t;
                  row_keyword := str_or keyword [];
                  row_url := str_or url [];
                  row_ctype := str_or ctype [];
                  row_language := str_or language [];
                  row_chars := chars;
                  row_model := val_or model (VStr []) |} in
    issue (NetAppendRow row) ;;;
    of_status (gs_append_row w row).

Definition log_failed (e : exn) : pystr :=
  lit "ℹ️ Log non registrato: " ++ str_of_exn w e.

Definition log_to_sheet (keyword url ctype language : pystr) (chars : Z)
    (model : pyval) : M unit :=
  try_except
    (log_to_sheet_body keyword url ctype language chars model)
    (fun e => st_info (log_failed e)).

(** The client is represented by the key it was built with. *)
Definition get_openai_client : M (option pyval) :=
  let key := val_or (secrets_get "OPENAI_API_KEY" (VStr []))
                    (VStr (getenv "OPENAI_API_KEY" [])) in
  if negb (val_truthy key) then
    st_error (lit "⚠️ Inserisci una API key valida (Secrets: OPENAI_API_KEY).") ;;;
    ret None
  else
    try_except
      (of_status (openai_client w key) ;;; ret (Some key))
      (fun e =>
         st_error (lit "Errore di import/inizializzazione OpenAI: "
                   ++ str_of_exn w e) ;;;
         ret None).

Definition call_openai (client : pyval) (model : pyval)
    (system_prompt user_prompt : pystr) (temperature : Q) (max_tokens : Z)
    : M pystr :=
  try_except
    (let call := {| call_model := model; call_system := system_prompt;
                    call_user := user_prompt;
                    call_temperature := temperature;
                    call_max_tokens := max_tokens |} in
     sofar <- issued ;;
     issue (NetCompletion call) ;;;
     content <- of_result (completion w sofar call) ;;
     ret (strip (str_or (default [] content) [])))
    (fun e =>
       st_error (lit "Errore chiamando il modello: " ++ str_of_exn w e) ;;;
       ret []).

(** *** Sidebar *)

Definition enable_en : bool :=
  val_truthy (secrets_get "ENABLE_ENGLISH" (VBool false)).

Definition language (f : form) : language_t :=
  match lang_choice f with
  | ChoiceEnglish => if enable_en then English else Italiano
  | ChoiceItaliano => Italiano
  end.

Definition target_chars (f : form) : Z :=
  target_chars_of (target_min f) (target_max f).

Definition sidebar (f : form) : M unit :=
  (match lang_choice f with
   | ChoiceEnglish =>
     if negb enable_en
     then st_info (lit "Per sbloccare l'inglese contatta Moca per il pacchetto avanzato.")
     else ret tt
   | ChoiceItaliano => ret tt
   end) ;;;
  if target_min f >? target_max f
  then st_warning (lit "⚠️ Il minimo non può superare il massimo.")
  else ret tt.

(** *** Prompt *)

(** [SYSTEM_PROMPT_BASE.format(...)] *)
Definition SYSTEM_PROMPT_BASE (min_c max_c target : Z) (ctype : pystr)
    : pystr :=
  lit "Sei un SEO copywriter esperto di e-commerce. Genera testi introduttivi per pagine categoria (listing) o schede prodotto." ++ [LF] ++
  [LF] ++
  lit "Regole fisse:" ++ [LF] ++
  lit "- Rispetta la lingua richiesta." ++ [LF] ++
  lit "- Mantieni tra " ++ str_of_int min_c ++ lit " e " ++ str_of_int max_c ++ lit " caratteri spazi inclusi (target " ++ str_of_int target ++ lit "). È TASSATIVO restare nel range richiesto." ++ [LF] ++
  lit "- Evita keyword stuffing; usa sinonimi e varianti semantiche pertinenti al search intent." ++ [LF] ++
  lit "- Tono: professionale, chiaro, allineato al brand." ++ [LF] ++
  lit "- NON usare H1/H2/H3, elenchi, markdown, emoji o caratteri speciali (ok “-” o “|” se utili)." ++ [LF] ++
  lit "- Non è un blog: dev’essere breve e funzionale alla pagina " ++ ctype ++ lit "." ++ [LF] ++
  lit "- Non inserire meta, FAQ, link esterni o spiegazioni." ++ [LF] ++
  lit "- Rispondi solo con il testo finale.".

(** [USER_PROMPT_TEMPLATE.format(...)] *)
Definition USER_PROMPT_TEMPLATE
    (keyword url domain ctype tone brand_voice extra_guidelines language
     intro_text bullets : pystr) (min_c max_c target : Z) : pystr :=
  lit "CONTESTO:" ++ [LF] ++
  lit "- Keyword principale: " ++ [QUOTE] ++ keyword ++ [QUOTE] ++ [LF] ++
  lit "- URL del sito: " ++ url ++ lit " (dominio: " ++ domain ++ lit ")" ++ [LF] ++
  lit "- Tipo contenuto: " ++ ctype ++ [LF] ++
  lit "- Tono: " ++ tone ++ [LF] ++
  lit "- Voce del brand: " ++ brand_voice ++ [LF] ++
  lit "- Linee guida extra: " ++ extra_guidelines ++ [LF] ++
  lit "- Lingua: " ++ language ++ [LF] ++
  [LF] ++
  lit "MATERIALI:" ++ [LF] ++
  lit "- Intro (facoltativa):" ++ [LF] ++
  intro_text ++ [LF] ++
  lit "- Bullet list (solo se scheda prodotto):" ++ [LF] ++
  bullets ++ [LF] ++
  [LF] ++
  lit "ISTRUZIONI:" ++ [LF] ++
  lit "1) Scrivi un testo introduttivo tra " ++ str_of_int min_c ++ lit " e " ++ str_of_int max_c ++ lit " caratteri spazi inclusi (target " ++ str_of_int target ++ lit ")." ++ [LF] ++
  lit "2) Inserisci in modo naturale almeno una delle keyword o varianti correlate all’intento di ricerca." ++ [LF] ++
  lit "3) Descrivi chiaramente tipologia di prodotti e valore/stile del brand." ++ [LF] ++
  lit "4) Evita ripetizioni e punteggiatura superflua; niente titoli/elenco/meta/FAQ/link esterni.".

Definition system_prompt_of (f : form) : pystr :=
  SYSTEM_PROMPT_BASE (target_min f) (target_max f) (target_chars f)
    (content_type_str (content_type f))
  ++ [LF; LF] ++ lit "OUTPUT:".

Definition output_rules : pystr :=
  lit "Restituisci esclusivamente il testo introduttivo (un unico blocco), "
  ++ lit "senza titoli, sottotitoli, elenchi, meta, FAQ, link esterni o commenti.".

Definition user_prompt_of (f : form) : pystr :=
  USER_PROMPT_TEMPLATE
    (keyword f)
    (str_or (url f) (lit "(non fornito)"))
    (str_or (clean_domain (url f)) (lit "(non disponibile)"))
    (content_type_str (content_type f))
    (tone_str (tone f))
    (str_or (brand_voice f) (lit "(non specificata)"))
    (str_or (extra_guidelines f) (lit "(nessuna)"))
    (language_str (language f))
    (str_or (intro_text f) [])
    (str_or (bullets f) [])
    (target_min f) (target_max f) (target_chars f)
  ++ [LF; LF] ++ output_rules.

Definition fix_prompt (f : form) : pystr :=
  lit "Riscrivi mantenendo il senso ma rientrando tra "
  ++ str_of_int (target_min f) ++ lit "-" ++ str_of_int (target_max f)
  ++ lit " caratteri "
  ++ lit "(spazi inclusi, target " ++ str_of_int (target_chars f)
  ++ lit "). Restituisci solo il contenuto, nessun commento.".

Definition chars_warning (cc min_c max_c : Z) : pystr :=
  lit "⚠️ Caratteri: " ++ str_of_int cc ++ lit " (target "
  ++ str_of_int min_c ++ lit "-" ++ str_of_int max_c ++ lit ").".

Definition chars_success (cc min_c max_c : Z) : pystr :=
  lit "Fatto ✅ — " ++ str_of_int cc ++ lit " caratteri (target "
  ++ str_of_int min_c ++ lit "-" ++ str_of_int max_c ++ lit ").".

(** *** Run *)

Definition out_of_range (cc min_c max_c : Z) : bool :=
  (cc <? min_c) || (cc >? max_c).

Definition run (f : form) : M unit :=
  if start f then
    if negb (truthy (strip (keyword f))) then
      st_warning (lit "Inserisci almeno la keyword principale.") ;;;
      st_stop
    else
      let system_prompt := system_prompt_of f in
      let user_prompt := user_prompt_of f in
      match provider f with
      | OpenAI =>
        client <- get_openai_client ;;
        match client with
        | None => st_stop
        | Some client =>
          content <- call_openai client MODEL_DEFAULT system_prompt
                       user_prompt (temperature f) 1000 ;;
          if negb (truthy content) then st_stop
          else
            (* Primo conteggio e micro-fix se fuori range *)
            let cc := char_count content in
            content <-
              (if out_of_range cc (target_min f) (target_max f) then
                 call_openai client MODEL_DEFAULT system_prompt
                   (content ++ [LF; LF] ++ fix_prompt f)
                   (temperature f) 1000
               else ret content) ;;
            (* Normalizza e ricalcola DOPO il trimming *)
            let content :=
              enforce_length (strip (str_or content []))
                (target_min f) (target_max f) in
            let cc := char_count content in
            try_except
              (log_to_sheet (keyword f) (url f)
                 (content_type_str (content_type f))
                 (language_str (language f)) cc MODEL_DEFAULT)
              (fun e => st_info (log_failed e)) ;;;
            (if out_of_range cc (target_min f) (target_max f)
             then st_warning
                    (chars_warning cc (target_min f) (target_max f))
             else st_success
                    (chars_success cc (target_min f) (target_max f))) ;;;
            show (ComponentsHtml (html_escape content)) ;;;
            show StDivider ;;;
            show (StMarkdown content)
        end
      end
  else ret tt.

(** One execution of the script. *)
Definition script (f : form) : outcome unit * trace :=
  (sidebar f ;;; run f) empty_trace.

End Script.

End App.

(** ** Definitions that follow the specification's wording *)

Module Spec.

Import App.

(** "The substring up to and including the last sentence-terminal
    character": the longest prefix of [t] that ends in a terminator, if [t]
    holds one. *)
Fixpoint upto_last_terminator (t : pystr) : option pystr :=
  match t with
  | [] => None
  | c :: t' =>
    match upto_last_terminator t' with
    | Some p => Some (c :: p)
    | None => if is_terminator c then Some [c] else None
    end
  end.

(** "Contains a sentence terminator". *)
Definition has_terminator (t : pystr) : bool := existsb is_terminator t.

(** "The first [n] characters". *)
Definition first_chars (n : Z) (t : pystr) : pystr := take (Z.to_nat n) t.

(** "The arithmetic mean". *)
Definition mean (a b : Z) : Q := inject_Z (a + b) / inject_Z 2.

(** "round": to the nearest integer, a tie going to the even neighbour, as
    Python's [round] does. *)
Definition round_half_even (q : Q) : Z :=
  let f := Qfloor q in
  match Qcompare (q - inject_Z f) (1 # 2) with
  | Lt => f
  | Gt => f + 1
  | Eq => if Z.even f then f else f + 1
  end.

(** "round", a tie going upward. *)
Definition round_half_up (q : Q) : Z := Qfloor (q + (1 # 2)).

(** "[p] occurs in [s]". *)
Fixpoint occurs (p s : pystr) : bool :=
  starts_with p s
  || match s with
     | [] => false
     | _ :: s' => occurs p s'
     end.

(** "The host with exactly one leading www. removed". *)
Definition strip_leading_www (host : pystr) : pystr :=
  if starts_with WWW host then drop (length WWW) host else host.

End Spec.

(** ** Definitions used to state and prove the properties *)

Module Derived.

Import App.

Definition non_terminator (c : char) : bool := negb (is_terminator c).

(** What follows [.+] in the sentence pattern, as a continuation on the rest
    of the input; [whole] is the text the match started on. *)
Definition after_plus (whole : pystr) (s : pystr) : option (option pystr) :=
  match s with
  | d :: s3 =>
    if is_terminator d
    then Re.star_greedy non_terminator s3
           (fun s4 => if Re.at_eos s4
                      then Some (Some (take (length whole - length s3) whole))
                      else None)
    else None
  | [] => None
  end.

(** A text of 121 characters: a full stop, then 120 times the letter a. *)
Definition stop_then_letters : pystr := 46%N :: repeat 97%N 120.

(** *** Sample inputs *)

Definition describe_exn (e : exn) : pystr :=
  match e with
  | KeyError key => lit key
  | LibraryError msg => msg
  end.

(** A deployment without secrets whose remote services all fail. *)
Definition offline : world :=
  {| secrets := ∅;
     environ := ∅;
     str_of_exn := describe_exn;
     nfkc := fun s => s;
     bracketed_host_ok := fun _ => true;
     openai_client := fun _ => None;
     completion := fun _ _ => inl (LibraryError (lit "Connection error."));
     sa_credentials := fun _ => Some (LibraryError (lit "invalid credentials"));
     gs_authorize := Some (LibraryError (lit "unreachable"));
     gs_open_by_key := fun _ => Some (LibraryError (lit "unreachable"));
     gs_worksheet := fun _ => Some (LibraryError (lit "unreachable"));
     zone_now := fun _ => inl (LibraryError (lit "no time zone"));
     gs_get_all_values := inl (LibraryError (lit "unreachable"));
     gs_append_row := fun _ => Some (LibraryError (lit "unreachable")) |}.

(** The form as it is first displayed. *)
Definition default_form : form :=
  {| provider := OpenAI; temperature := 4 # 10;
     lang_choice := ChoiceItaliano; tone := Professionale;
     brand_voice := []; target_min := 500; target_max := 600;
     keyword := []; url := []; content_type := Listing;
     intro_text := []; bullets := []; extra_guidelines := [];
     start := false |}.

Definition with_bounds (f : form) (lo hi : Z) : form :=
  {| provider := provider f; temperature := temperature f;
     lang_choice := lang_choice f; tone := tone f;
     brand_voice := brand_voice f; target_min := lo; target_max := hi;
     keyword := keyword f; url := url f; content_type := content_type f;
     intro_text := intro_text f; bullets := bullets f;
     extra_guidelines := extra_guidelines f; start := start f |}.

(** The form submitted with a keyword. *)
Definition submitted (f : form) (kw : pystr) : form :=
  {| provider := provider f; temperature := temperature f;
     lang_choice := lang_choice f; tone := tone f;
     brand_voice := brand_voice f; target_min := target_min f;
     target_max := target_max f;
     keyword := kw; url := url f; content_type := content_type f;
     intro_text := intro_text f; bullets := bullets f;
     extra_guidelines := extra_guidelines f; start := true |}.

Definition not_slash (c : char) : bool := negb (c =? 47)%N.

(** *** The stages of a run, read off the world *)

(** The key the client is built with. *)
Definition api_key (w : world) : pyval :=
  val_or (secrets_get w "OPENAI_API_KEY" (VStr []))
         (VStr (getenv w "OPENAI_API_KEY" [])).

(** A key is configured and the client can be built. *)
Definition client_ready (w : world) : Prop :=
  val_truthy (api_key w) = true /\ openai_client w (api_key w) = None.

(** The run gets as far as the first completion call. *)
Definition reaches_first_call (w : world) (f : form) : Prop :=
  start f = true /\ strip (keyword f) <> [] /\ client_ready w.

(** The text a reply carries: nothing for an error or a missing content. *)
Definition raw_output (r : exn + option pystr) : pystr :=
  match r with
  | inr (Some c) => c
  | _ => []
  end.

(** The error [call_openai] shows for a reply. *)
Definition call_errors (w : world) (r : exn + option pystr) : list ui_event :=
  match r with
  | inl e => [StError (lit "Errore chiamando il modello: " ++ str_of_exn w e)]
  | inr _ => []
  end.

Definition first_call (w : world) (f : form) : llm_call :=
  {| call_model := MODEL_DEFAULT w;
     call_system := system_prompt_of f;
     call_user := user_prompt_of w f;
     call_temperature := temperature f;
     call_max_tokens := 1000 |}.

Definition first_reply (w : world) (f : form) : exn + option pystr :=
  completion w [] (first_call w f).

(** The result of the first call, as [call_openai] returns it. *)
Definition first_result (w : world) (f : form) : pystr :=
  strip (raw_output (first_reply w f)).

(** The character count lies in the inclusive window of the form. *)
Definition in_window (f : form) (n : Z) : Prop :=
  target_min f <= n <= target_max f.

Definition corrective_call (w : world) (f : form) : llm_call :=
  {| call_model := MODEL_DEFAULT w;
     call_system := system_prompt_of f;
     call_user := first_result w f ++ [LF; LF] ++ fix_prompt f;
     call_temperature := temperature f;
     call_max_tokens := 1000 |}.

Definition corrective_reply (w : world) (f : form) : exn + option pystr :=
  completion w [NetCompletion (first_call w f)] (corrective_call w f).

Definition corrective_result (w : world) (f : form) : pystr :=
  strip (raw_output (corrective_reply w f)).

(** Whether the first result sends the run through the corrective call. *)
Definition needs_fix (w : world) (f : form) : bool :=
  out_of_range (char_count (first_result w f)) (target_min f) (target_max f).

(** The reply whose text goes on to the length enforcement. *)
Definition last_reply (w : world) (f : form) : exn + option pystr :=
  if needs_fix w f then corrective_reply w f else first_reply w f.

Definition final_text (w : world) (f : form) : pystr :=
  enforce_length (strip (raw_output (last_reply w f)))
    (target_min f) (target_max f).

(** The message that reports the final character count. *)
Definition final_status (w : world) (f : form) : ui_event :=
  let cc := char_count (final_text w f) in
  if out_of_range cc (target_min f) (target_max f)
  then StWarning (chars_warning cc (target_min f) (target_max f))
  else StSuccess (chars_success cc (target_min f) (target_max f)).

(** What the sidebar shows. *)
Definition sidebar_ui (w : world) (f : form) : list ui_event :=
  ui (snd (sidebar w f empty_trace)).

(** The completion calls among the network operations. *)
Definition completions (l : list net_event) : list llm_call :=
  omap (fun e => match e with NetCompletion c => Some c | _ => None end) l.

Definition is_info (e : ui_event) : bool :=
  match e with StInfo _ => true | _ => false end.

Definition is_completion (e : net_event) : bool :=
  match e with NetCompletion _ => true | _ => false end.

Definition is_append (e : net_event) : bool :=
  match e with NetAppendRow _ => true | _ => false end.

(** What the page shows apart from informational notices. *)
Definition non_info (l : list ui_event) : list ui_event :=
  filter (fun e => negb (is_info e)) l.

(** The trace [tr] extended with further operations and messages. *)
Definition extend (tr : trace) (n : list net_event) (u : list ui_event)
    : trace :=
  {| net := net tr ++ n; ui := ui tr ++ u |}.

(** The completion endpoint answering the calls of a run with the given
    replies, in order; further calls fail. *)
Definition scripted (replies : list (exn + option pystr))
    (sofar : list net_event) (c : llm_call) : exn + option pystr :=
  default (inl (LibraryError (lit "Connection error.")))
          (replies !! length (completions sofar)).

(** A deployment with the given secrets and completion replies, whose
    spreadsheet service is up or down. *)
Definition deployment (secs : gmap string pyval)
    (replies : list (exn + option pystr)) (sheets_up : bool) : world :=
  let status := if sheets_up then None
                else Some (LibraryError (lit "unreachable")) in
  {| secrets := secs;
     environ := ∅;
     str_of_exn := describe_exn;
     nfkc := fun s => s;
     bracketed_host_ok := fun _ => true;
     openai_client := fun _ => None;
     completion := scripted replies;
     sa_credentials := fun _ => status;
     gs_authorize := status;
     gs_open_by_key := fun _ => status;
     gs_worksheet := fun _ => status;
     zone_now := fun _ => inr (lit "2025-09-01", lit "10:30:00");
     gs_get_all_values := inr 1;
     gs_append_row := fun _ => status |}.

(** Secrets with an API key only. *)
Definition key_only : gmap string pyval :=
  {[ "OPENAI_API_KEY" := VStr (lit "sk-test") ]}.

(** Secrets with an API key and the service account, but no sheet id. *)
Definition no_sheet_id : gmap string pyval :=
  <[ "gcp_service_account" := VTable [("type", lit "service_account")] ]>
    key_only.

(** Secrets with an API key and the whole logging configuration. *)
Definition with_logging : gmap string pyval :=
  <[ "LOG_SHEET_ID" := VStr (lit "sheet-1") ]> no_sheet_id.

(** The default form submitted with a keyword. *)
Definition request : form := submitted default_form (lit "frigoriferi da incasso").

Definition short_text : pystr := lit "Frigoriferi Smeg da incasso.".

(** A text of 521 characters that ends in a full stop. *)
Definition fitting_text : pystr := repeat 97%N 520 ++ [46%N].

(** A deployment whose first reply is too short and whose second fits. *)
Definition short_then_fitting : world :=
  deployment key_only [inr (Some short_text); inr (Some fitting_text)] false.

(** A deployment whose first reply is too short and whose second call
    fails. *)
Definition short_then_error : world :=
  deployment key_only [inr (Some short_text)] false.

(** Secrets with an API key and the sheet id, but no service account. *)
Definition sheet_id_only : gmap string pyval :=
  <[ "LOG_SHEET_ID" := VStr (lit "sheet-1") ]> key_only.

(** The keys of [st.secrets] that only [log_to_sheet] reads. *)
Definition is_logging_key (k : string) : bool :=
  String.eqb k "LOG_SHEET_ID" || String.eqb k "LOG_SHEET_NAME"
  || String.eqb k "TIMEZONE" || String.eqb k "gcp_service_account".

(** Two worlds that differ at most in what logging depends on: the logging
    keys of the secrets and the spreadsheet service. *)
Definition same_outside_logging (w1 w2 : world) : Prop :=
  (forall k, is_logging_key k = false -> secrets w1 !! k = secrets w2 !! k)
  /\ environ w1 = environ w2
  /\ str_of_exn w1 = str_of_exn w2
  /\ nfkc w1 = nfkc w2
  /\ bracketed_host_ok w1 = bracketed_host_ok w2
  /\ openai_client w1 = openai_client w2
  /\ completion w1 = completion w2.

(** The same deployment with the spreadsheet configured, up and down. *)
Definition logging_up : world :=
  deployment with_logging [inr (Some fitting_text)] true.

Definition logging_down : world :=
  deployment with_logging [inr (Some fitting_text)] false.

(** A computation that only talks to the spreadsheet: it shows nothing,
    issues no completion call and does not stop the script. *)
Definition sheet_only {A} (m : M A) : Prop :=
  forall tr, exists o lnet,
    m tr = (o, extend tr lnet [])
    /\ o <> Stop
    /\ forallb (fun e => negb (is_completion e)) lnet = true.

End Derived.

(** ** Definitions for the properties beyond the specification *)

Module Coverage.

Import App Derived.

(** The message [get_openai_client] shows when no key is configured. *)
Definition missing_key_error : ui_event :=
  StError (lit "⚠️ Inserisci una API key valida (Secrets: OPENAI_API_KEY).").

(** The message [get_openai_client] shows when the client cannot be built. *)
Definition client_init_error (w : world) (e : exn) : ui_event :=
  StError (lit "Errore di import/inizializzazione OpenAI: " ++ str_of_exn w e).

(** The row [log_to_sheet] appends, given the row count and the time. *)
Definition built_row (n : Z) (d t kw url ct lang : pystr) (chars : Z)
    (model : pyval) : sheet_row :=
  {| row_n := n; row_d := d; row_t := t;
     row_keyword := kw; row_url := url; row_ctype := ct;
     row_language := lang; row_chars := chars;
     row_model := val_or model (VStr []) |}.

(** The rows among the network operations for which an append was issued. *)
Definition appended (l : list net_event) : list sheet_row :=
  omap (fun e => match e with NetAppendRow r => Some r | _ => None end) l.

(** The texts passed to [st.markdown]. *)
Definition displayed (l : list ui_event) : list pystr :=
  omap (fun e => match e with StMarkdown m => Some m | _ => None end) l.

(** The characters [html.escape] replaces, apart from the ampersand. *)
Definition is_markup_char (c : char) : bool :=
  ((c =? 60) || (c =? 62) || (c =? 34) || (c =? 39))%N.

(** Decoding of the five character references [html.escape] writes, as a
    browser does when it reads the content of the textarea.  [skip] counts
    the characters of a reference still to be dropped. *)
Fixpoint html_unescape_go (skip : nat) (s : pystr) : pystr :=
  match s with
  | [] => []
  | c :: s' =>
    match skip with
    | S k => html_unescape_go k s'
    | O =>
      if (c =? 38)%N then
        if starts_with (lit "amp;") s' then 38%N :: html_unescape_go 4 s'
        else if starts_with (lit "lt;") s' then 60%N :: html_unescape_go 3 s'
        else if starts_with (lit "gt;") s' then 62%N :: html_unescape_go 3 s'
        else if starts_with (lit "quot;") s' then 34%N :: html_unescape_go 5 s'
        else if starts_with (lit "#x27;") s' then 39%N :: html_unescape_go 5 s'
        else c :: html_unescape_go 0 s'
      else c :: html_unescape_go 0 s'
    end
  end.

Definition html_unescape (s : pystr) : pystr := html_unescape_go 0 s.

(** A deployment without any API key. *)
Definition no_key : world := deployment ∅ [] true.

(** A deployment whose client cannot be built. *)
Definition broken_client : world :=
  {| secrets := key_only;
     environ := ∅;
     str_of_exn := describe_exn;
     nfkc := fun s => s;
     bracketed_host_ok := fun _ => true;
     openai_client := fun _ => Some (LibraryError (lit "No module named 'openai'"));
     completion := scripted [];
     sa_credentials := fun _ => None;
     gs_authorize := None;
     gs_open_by_key := fun _ => None;
     gs_worksheet := fun _ => None;
     zone_now := fun _ => inr (lit "2025-09-01", lit "10:30:00");
     gs_get_all_values := inr 1;
     gs_append_row := fun _ => None |}.

(** A deployment whose key comes from the environment. *)
Definition key_in_environ : world :=
  {| secrets := ∅;
     environ := {[ "OPENAI_API_KEY" := lit "sk-env" ]};
     str_of_exn := describe_exn;
     nfkc := fun s => s;
     bracketed_host_ok := fun _ => true;
     openai_client := fun _ => None;
     completion := scripted [];
     sa_credentials := fun _ => None;
     gs_authorize := None;
     gs_open_by_key := fun _ => None;
     gs_worksheet := fun _ => None;
     zone_now := fun _ => inr (lit "2025-09-01", lit "10:30:00");
     gs_get_all_values := inr 1;
     gs_append_row := fun _ => None |}.

(** A deployment whose first reply is made of blanks. *)
Definition blank_reply : world :=
  deployment key_only [inr (Some (lit "   "))] true.

(** A deployment whose first reply fits the default window. *)
Definition fitting_reply : world :=
  deployment key_only [inr (Some fitting_text)] true.

(** The default form with the bounds exchanged, submitted. *)
Definition inverted_request : form :=
  submitted (with_bounds default_form 600 500) (lit "frigoriferi da incasso").

(** The submitted form with English chosen. *)
Definition english_request : form :=
  {| provider := OpenAI; temperature := 4 # 10;
     lang_choice := ChoiceEnglish; tone := Professionale;
     brand_voice := []; target_min := 500; target_max := 600;
     keyword := lit "built-in fridges"; url := []; content_type := Listing;
     intro_text := []; bullets := []; extra_guidelines := [];
     start := true |}.

(** The notice shown when English is chosen but locked. *)
Definition english_locked_notice : ui_event :=
  StInfo (lit "Per sbloccare l'inglese contatta Moca per il pacchetto avanzato.").

(** The warning shown when the minimum exceeds the maximum. *)
Definition bounds_warning : ui_event :=
  StWarning (lit "⚠️ Il minimo non può superare il massimo.").

End Coverage.

Import App Spec Derived Coverage.
Local Open Scope py_scope.

(** * Properties *)

(** ** Strings *)

Lemma len_nonneg (s : pystr) : 0 <= len s.
Proof. unfold len. lia. Qed.

Lemma slice_to_nonneg (s : pystr) (n : Z) :
  0 <= n -> slice_to s n = first_chars n s.
Proof.
  intros Hn. unfold slice_to, first_chars.
  destruct (0 <=? n) eqn:E; [reflexivity | lia].
Qed.

Lemma len_first_chars (s : pystr) (n : Z) :
  0 <= n -> n <= len s -> len (first_chars n s) = n.
Proof.
  unfold len, first_chars. intros H0 Hle.
  rewrite length_take. lia.
Qed.

(** ** The sentence pattern *)

Section SentencePattern.

Lemma terminator_not_LF (c : char) : is_terminator c = true -> (c =? LF)%N = false.
Proof.
  unfold is_terminator, LF. intros H.
  destruct (N.eqb_spec c 10) as [->|]; [discriminate H | reflexivity].
Qed.

Lemma upto_none_iff (t : pystr) :
  upto_last_terminator t = None <-> forallb non_terminator t = true.
Proof.
  induction t as [|c t IH]; simpl; [tauto|].
  unfold non_terminator at 1.
  destruct (upto_last_terminator t) as [p|].
  - split; [discriminate|]. intros H. apply andb_true_iff in H as [_ H].
    apply IH in H. discriminate.
  - destruct (is_terminator c); simpl.
    + split; discriminate.
    + split; [|reflexivity]. intros _. apply IH. reflexivity.
Qed.

Lemma upto_none_has (t : pystr) :
  upto_last_terminator t = None <-> has_terminator t = false.
Proof.
  rewrite upto_none_iff. unfold has_terminator, non_terminator.
  induction t as [|c t IH]; simpl; [tauto|].
  rewrite andb_true_iff, orb_false_iff, IH, negb_true_iff. tauto.
Qed.

Lemma upto_app_last (x rest : pystr) (c : char) :
  is_terminator c = true -> has_terminator rest = false ->
  upto_last_terminator (x ++ c :: rest) = Some (x ++ [c]).
Proof.
  intros Hc Hrest. apply upto_none_has in Hrest.
  induction x as [|a x IH]; simpl.
  - rewrite Hrest, Hc. reflexivity.
  - rewrite IH. reflexivity.
Qed.

Lemma upto_is_prefix (t p : pystr) :
  upto_last_terminator t = Some p ->
  exists x c rest, t = x ++ c :: rest /\ p = x ++ [c]
                   /\ is_terminator c = true /\ has_terminator rest = false.
Proof.
  revert p. induction t as [|a t IH]; simpl; intros p H; [discriminate|].
  destruct (upto_last_terminator t) as [q|] eqn:E.
  - injection H as <-. destruct (IH q eq_refl) as (x & c & rest & -> & -> & Hc & Hr).
    exists (a :: x), c, rest. auto.
  - destruct (is_terminator a) eqn:Ha; [|discriminate]. injection H as <-.
    exists [], a, t. repeat split; auto. apply upto_none_has, E.
Qed.

(** [[^\.!?]*$] succeeds exactly on a text without terminator. *)
Lemma star_non_terminator_eos {A} (s : pystr) (v : A) :
  Re.star_greedy non_terminator s
    (fun s' => if Re.at_eos s' then Some v else None)
  = if forallb non_terminator s then Some v else None.
Proof.
  induction s as [|c s IH]; simpl; [reflexivity|].
  unfold non_terminator at 1 3.
  destruct (is_terminator c) eqn:Hc; simpl.
  - destruct s; [|reflexivity]. rewrite (terminator_not_LF c Hc). reflexivity.
  - rewrite IH. destruct (forallb non_terminator s) eqn:Hs; [reflexivity|].
    destruct s; [discriminate Hs | reflexivity].
Qed.

Lemma match_here_unfold (c : char) (s : pystr) :
  Re.match_here SENTENCE_RE (c :: s)
  = Re.star_greedy (fun _ => true) s (after_plus (c :: s)).
Proof. reflexivity. Qed.

Lemma plus_any_cut (whole : pystr) :
  forall s pre, whole = pre ++ s ->
    Re.star_greedy (fun _ => true) s (after_plus whole)
    = match upto_last_terminator s with
      | Some p => Some (Some (pre ++ p))
      | None => None
      end.
Proof.
  induction s as [|c s IH]; intros pre Hw; simpl; [reflexivity|].
  rewrite (IH (pre ++ [c])) by (rewrite <- app_assoc; exact Hw).
  destruct (upto_last_terminator s) as [p|] eqn:E.
  - rewrite <- app_assoc. reflexivity.
  - destruct (is_terminator c) eqn:Hc; [|reflexivity].
    rewrite star_non_terminator_eos.
    apply upto_none_iff in E. rewrite E.
    subst whole. do 3 f_equal.
    rewrite length_app. simpl.
    replace (length pre + S (length s) - length s)%nat
      with (length (pre ++ [c])) by (rewrite length_app; simpl; lia).
    replace (pre ++ c :: s) with ((pre ++ [c]) ++ s)
      by (rewrite <- app_assoc; reflexivity).
    apply take_app_length.
Qed.

Lemma match_here_cons (c : char) (s : pystr) :
  Re.match_here SENTENCE_RE (c :: s)
  = match upto_last_terminator s with
    | Some p => Some (Some (c :: p))
    | None => None
    end.
Proof.
  rewrite match_here_unfold, (plus_any_cut (c :: s) s [c] eq_refl).
  reflexivity.
Qed.

Lemma search_no_terminator (s : pystr) :
  upto_last_terminator s = None -> Re.search SENTENCE_RE s = None.
Proof.
  induction s as [|c s IH]; intros H; [reflexivity|].
  assert (Hs : upto_last_terminator s = None).
  { simpl in H. destruct (upto_last_terminator s); [discriminate|reflexivity]. }
  change (Re.search SENTENCE_RE (c :: s))
    with (match Re.match_here SENTENCE_RE (c :: s) with
          | Some g => Some g
          | None => Re.search SENTENCE_RE s
          end).
  rewrite match_here_cons, Hs. apply IH, Hs.
Qed.

(** The search finds the longest prefix that ends in a terminator lying
    after the first character. *)
Lemma search_sentence (c : char) (s : pystr) :
  Re.search SENTENCE_RE (c :: s)
  = match upto_last_terminator s with
    | Some p => Some (Some (c :: p))
    | None => None
    end.
Proof.
  change (Re.search SENTENCE_RE (c :: s))
    with (match Re.match_here SENTENCE_RE (c :: s) with
          | Some g => Some g
          | None => Re.search SENTENCE_RE s
          end).
  rewrite match_here_cons.
  destruct (upto_last_terminator s) eqn:E; [reflexivity|].
  apply search_no_terminator, E.
Qed.

End SentencePattern.

(** ** [enforce_length] *)

Lemma enforce_length_short (text : pystr) (min_c max_c : Z) :
  len text <= max_c -> enforce_length text min_c max_c = text.
Proof.
  intros H. unfold enforce_length.
  destruct (len text <=? max_c) eqn:E; [reflexivity | lia].
Qed.

Lemma enforce_length_long (text : pystr) (min_c max_c : Z) :
  0 <= max_c -> max_c < len text ->
  enforce_length text min_c max_c
  = match first_chars max_c text with
    | c :: t =>
      match upto_last_terminator t with
      | Some p => c :: p
      | None => c :: t
      end
    | [] => []
    end.
Proof.
  intros H0 Hlt. unfold enforce_length.
  destruct (len text <=? max_c) eqn:E; [lia|].
  rewrite slice_to_nonneg by exact H0.
  destruct (first_chars max_c text) as [|c t]; [reflexivity|].
  rewrite search_sentence.
  destruct (upto_last_terminator t); reflexivity.
Qed.

Lemma enforce_length_bound (text : pystr) (min_c max_c : Z) :
  0 <= max_c -> len (enforce_length text min_c max_c) <= max_c.
Proof.
  intros H0. destruct (Z_le_gt_dec (len text) max_c) as [Hle|Hgt].
  - rewrite enforce_length_short; assumption.
  - rewrite enforce_length_long by lia.
    assert (Hlen : len (first_chars max_c text) = max_c)
      by (apply len_first_chars; lia).
    destruct (first_chars max_c text) as [|c t]; [exact H0|].
    destruct (upto_last_terminator t) as [p|] eqn:E; [|lia].
    apply upto_is_prefix in E as (x & d & rest & -> & -> & _ & _).
    revert Hlen. unfold len. simpl. rewrite !length_app. simpl. lia.
Qed.

(** Only a terminator in first position: the cut is the hard one. *)
Lemma enforce_length_leading_only (text : pystr) (min_c max_c : Z)
    (c : char) (rest : pystr) :
  0 <= max_c -> max_c < len text ->
  first_chars max_c text = c :: rest -> has_terminator rest = false ->
  enforce_length text min_c max_c = first_chars max_c text.
Proof.
  intros H0 Hlt Hp Hrest. rewrite enforce_length_long by assumption.
  rewrite Hp. apply upto_none_has in Hrest. rewrite Hrest. reflexivity.
Qed.

(** C2, as stated, fails when the only terminator of the prefix is its
    first character: the prefix does contain a terminator, the substring up
    to and including it is ".", yet the function returns the whole prefix of
    100 characters, which ends in a letter. *)
Lemma enforce_length_leading_terminator_kept_whole :
  100 < len stop_then_letters
  /\ has_terminator (first_chars 100 stop_then_letters) = true
  /\ upto_last_terminator (first_chars 100 stop_then_letters) = Some [46%N]
  /\ enforce_length stop_then_letters 100 100
     = first_chars 100 stop_then_letters
  /\ enforce_length stop_then_letters 100 100 <> [46%N]
  /\ last (enforce_length stop_then_letters 100 100) = Some 97%N
  /\ is_terminator 97%N = false.
Proof. vm_compute. repeat split; try reflexivity. discriminate. Qed.

(** C2 (amended): for a text longer than [max_c] whose first [max_c]
    characters hold a sentence terminator after the first character,
    [enforce_length] returns that prefix up to and including its last
    terminator; the result ends in that terminator, is at most [max_c] long
    and is left unchanged by a second application with the same window. *)
Theorem enforce_length_sentence_cut (text : pystr) (min_c max_c : Z)
    (x : pystr) (c : char) (rest : pystr) :
  0 <= max_c -> max_c < len text ->
  first_chars max_c text = x ++ c :: rest ->
  x <> [] -> is_terminator c = true -> has_terminator rest = false ->
  enforce_length text min_c max_c = x ++ [c]
  /\ last (enforce_length text min_c max_c) = Some c
  /\ len (enforce_length text min_c max_c) <= max_c
  /\ enforce_length (enforce_length text min_c max_c) min_c max_c
     = enforce_length text min_c max_c.
Proof.
  intros H0 Hlt Hp Hx Hc Hrest.
  assert (E : enforce_length text min_c max_c = x ++ [c]).
  { rewrite enforce_length_long by assumption. rewrite Hp.
    destruct x as [|a x]; [congruence|]. simpl.
    rewrite (upto_app_last x rest c Hc Hrest). reflexivity. }
  pose proof (enforce_length_bound text min_c max_c H0) as Hb.
  split; [exact E|]. split; [rewrite E; apply last_snoc|].
  split; [exact Hb|]. apply enforce_length_short, Hb.
Qed.

Lemma enforce_length_sentence_cut_witness :
  enforce_length (lit "Uno. Due! Tre") 1 12 = lit "Uno. Due!"
  /\ last (enforce_length (lit "Uno. Due! Tre") 1 12) = Some 33%N
  /\ len (enforce_length (lit "Uno. Due! Tre") 1 12) <= 12
  /\ enforce_length (enforce_length (lit "Uno. Due! Tre") 1 12) 1 12
     = enforce_length (lit "Uno. Due! Tre") 1 12.
Proof.
  apply (enforce_length_sentence_cut (lit "Uno. Due! Tre") 1 12
           (lit "Uno. Due") 33%N (lit " Tr")).
  - lia.
  - vm_compute. reflexivity.
  - vm_compute. reflexivity.
  - vm_compute. discriminate.
  - vm_compute. reflexivity.
  - vm_compute. reflexivity.
Defined.

(** C3: a text no longer than [max_c] is returned unchanged; a longer text
    whose first [max_c] characters hold no sentence terminator is cut to
    exactly these characters.  The bound is a character count of the form,
    hence not negative. *)
Theorem enforce_length_unchanged_or_hard_cut (text : pystr) (min_c max_c : Z) :
  (len text <= max_c -> enforce_length text min_c max_c = text)
  /\ (0 <= max_c -> max_c < len text ->
      has_terminator (first_chars max_c text) = false ->
      enforce_length text min_c max_c = first_chars max_c text).
Proof.
  split; [apply enforce_length_short|].
  intros H0 Hlt Hno. rewrite enforce_length_long by assumption.
  destruct (first_chars max_c text) as [|c t]; [reflexivity|].
  simpl in Hno. apply orb_false_iff in Hno as [_ Hno].
  apply upto_none_has in Hno. rewrite Hno. reflexivity.
Qed.

Lemma enforce_length_unchanged_or_hard_cut_witness :
  enforce_length (lit "ciao") 1 5 = lit "ciao"
  /\ enforce_length (lit "senza punto") 1 5 = lit "senza".
Proof.
  split.
  - apply (proj1 (enforce_length_unchanged_or_hard_cut (lit "ciao") 1 5)).
    vm_compute. discriminate.
  - apply (proj2 (enforce_length_unchanged_or_hard_cut (lit "senza punto") 1 5)).
    + lia.
    + vm_compute. reflexivity.
    + vm_compute. reflexivity.
Defined.

(** ** [target_chars] *)

Lemma target_chars_of_quot (a b : Z) : target_chars_of a b = Z.quot (a + b) 2.
Proof.
  unfold target_chars_of, py_int, Qdiv, Qmult, Qinv, inject_Z. simpl.
  rewrite Z.mul_1_r. reflexivity.
Qed.

Lemma mean_floor (a b : Z) : Qfloor (mean a b) = (a + b) / 2.
Proof.
  unfold mean, Qfloor, Qdiv, Qmult, Qinv, inject_Z. simpl.
  rewrite Z.mul_1_r. reflexivity.
Qed.

Lemma round_half_even_whole (a b k : Z) :
  a + b = 2 * k -> round_half_even (mean a b) = k.
Proof.
  intros H. unfold round_half_even. rewrite mean_floor.
  replace ((a + b) / 2) with k by (rewrite H, Z.mul_comm, Z.div_mul; lia).
  unfold mean. rewrite H.
  unfold Qcompare, Qminus, Qplus, Qopp, Qdiv, Qmult, Qinv, inject_Z. simpl.
  match goal with
  | |- context [Z.compare ?x ?y] =>
    assert (E : Z.compare x y = Lt) by (apply Z.compare_lt_iff; lia);
    rewrite E
  end.
  reflexivity.
Qed.

Lemma round_half_up_whole (a b k : Z) :
  a + b = 2 * k -> round_half_up (mean a b) = k.
Proof.
  intros H. unfold round_half_up, mean. rewrite H.
  unfold Qfloor, Qplus, Qdiv, Qmult, Qinv, inject_Z. simpl.
  symmetry. apply Z.div_unique with (r := 2); lia.
Qed.

(** C6, as stated, fails on an odd sum: for the bounds 101 and 102 the mean
    is 101.5, which rounds to 102 (tie to even or tie upward alike), while
    the script computes 101. *)
Lemma target_chars_odd_sum_not_rounded :
  form_accepts (with_bounds default_form 101 102)
  /\ target_chars (with_bounds default_form 101 102) = 101
  /\ round_half_even (mean 101 102) = 102
  /\ round_half_up (mean 101 102) = 102.
Proof.
  unfold form_accepts. simpl. repeat split; try lia; vm_compute; reflexivity.
Qed.

(** C6 (amended): for every pair of bounds accepted by the form, the target
    is the arithmetic mean truncated to an integer, that is rounded down:
    it equals the mean when the sum of the bounds is even (where it agrees
    with rounding to the nearest integer) and lies one half below it when
    the sum is odd. *)
Theorem target_chars_mean_rounded_down (f : form) :
  form_accepts f ->
  target_chars f = (target_min f + target_max f) / 2
  /\ target_chars f = Qfloor (mean (target_min f) (target_max f))
  /\ 0 <= target_min f + target_max f - 2 * target_chars f <= 1
  /\ (Z.even (target_min f + target_max f) = true ->
      target_chars f = round_half_even (mean (target_min f) (target_max f))
      /\ target_chars f = round_half_up (mean (target_min f) (target_max f))).
Proof.
  intros [[Ha _] [Hb _]]. unfold target_chars.
  rewrite target_chars_of_quot, mean_floor.
  rewrite Z.quot_div_nonneg by lia.
  split; [reflexivity|]. split; [reflexivity|].
  split.
  - pose proof (Z.div_mod (target_min f + target_max f) 2 ltac:(lia)).
    pose proof (Z.mod_pos_bound (target_min f + target_max f) 2 ltac:(lia)).
    lia.
  - intros He. apply Z.even_spec in He as [k Hk].
    rewrite (round_half_even_whole _ _ k Hk), (round_half_up_whole _ _ k Hk).
    rewrite Hk, Z.mul_comm, Z.div_mul by lia. split; reflexivity.
Qed.

Lemma target_chars_mean_rounded_down_witness :
  target_chars default_form = (500 + 600) / 2
  /\ target_chars default_form = 550.
Proof.
  destruct (target_chars_mean_rounded_down default_form) as [H _].
  - unfold form_accepts, default_form. simpl. lia.
  - split; [exact H | rewrite H; reflexivity].
Defined.

(** ** [clean_domain] *)

Lemma replace_no_occurrence (old new s : pystr) :
  occurs old s = false -> replace old new s = s.
Proof.
  unfold replace. induction s as [|c s IH]; intros H; [reflexivity|].
  simpl in H. apply orb_false_iff in H as [Hs Ho].
  cbn [replace_go]. rewrite Hs, (IH Ho). reflexivity.
Qed.

Lemma replace_www_leading (rest : pystr) :
  replace WWW [] (WWW ++ rest) = replace WWW [] rest.
Proof. reflexivity. Qed.

Lemma replace_go_erase_forallb (P : char -> bool) (old s : pystr) :
  forall skip, forallb P s = true ->
    forallb P (replace_go old [] skip s) = true.
Proof.
  induction s as [|c s IH]; intros skip H; [reflexivity|].
  simpl in H. apply andb_true_iff in H as [Hc Hs].
  cbn [replace_go]. destruct skip as [|k]; [|apply IH, Hs].
  destruct (starts_with old (c :: s)); simpl.
  - apply IH, Hs.
  - rewrite Hc. apply IH, Hs.
Qed.

Lemma take_netloc_not_slash (s : pystr) :
  forallb not_slash (Urllib.take_netloc s) = true.
Proof.
  induction s as [|c s IH]; simpl; [reflexivity|].
  destruct (Urllib.is_netloc_delim c) eqn:E; simpl; [reflexivity|].
  rewrite IH, andb_true_r. unfold not_slash, Urllib.is_netloc_delim in *.
  destruct (c =? 47)%N; [discriminate E | reflexivity].
Qed.

Lemma lstrip_c0_forallb (P : char -> bool) (s : pystr) :
  forallb P s = true -> forallb P (Urllib.lstrip_c0 s) = true.
Proof.
  induction s as [|c s IH]; intros H; [reflexivity|].
  simpl. destruct (Urllib.is_c0_or_space c); [|exact H].
  simpl in H. apply andb_true_iff in H as [_ H]. apply IH, H.
Qed.

Lemma filter_forallb (P Q : char -> bool) (s : pystr) :
  forallb P s = true -> forallb P (filter Q s) = true.
Proof.
  rewrite !forallb_forall. intros H c Hc.
  apply H. apply list_elem_of_In. apply list_elem_of_In in Hc.
  apply list_elem_of_filter in Hc. tauto.
Qed.

Lemma drop_forallb (P : char -> bool) (n : nat) (s : pystr) :
  forallb P s = true -> forallb P (drop n s) = true.
Proof.
  revert n. induction s as [|c s IH]; intros [|n] H; try exact H.
  simpl in H. apply andb_true_iff in H as [_ H]. simpl. apply IH, H.
Qed.

Lemma drop_scheme_forallb (P : char -> bool) (s : pystr) :
  forallb P s = true -> forallb P (Urllib.drop_scheme s) = true.
Proof.
  intros H. unfold Urllib.drop_scheme.
  destruct (find_char 58%N s) as [[|i]|]; try exact H.
  destruct s as [|c0 s']; [exact H|].
  destruct (_ && _); [|exact H].
  apply drop_forallb, H.
Qed.

(** A text without slash has no network location. *)
Lemma urlparse_netloc_no_slash (norm : pystr -> pystr) (ok : pystr -> bool)
    (s : pystr) :
  forallb not_slash s = true -> Urllib.urlparse_netloc norm ok s = Some [].
Proof.
  intros H. unfold Urllib.urlparse_netloc. cbv zeta.
  set (u := Urllib.drop_scheme _).
  assert (Hu : forallb not_slash u = true).
  { apply drop_scheme_forallb, filter_forallb, lstrip_c0_forallb, H. }
  assert (Hs : starts_with [47; 47]%N u = false).
  { destruct u as [|c u']; [reflexivity|].
    cbn [forallb] in Hu. apply andb_true_iff in Hu as [Hc _].
    unfold not_slash in Hc. cbn [starts_with]. rewrite N.eqb_sym.
    destruct (c =? 47)%N; [discriminate Hc | reflexivity]. }
  rewrite Hs. reflexivity.
Qed.

Lemma clean_domain_not_slash (w : world) (url : pystr) :
  forallb not_slash (clean_domain w url) = true.
Proof.
  unfold clean_domain, Urllib.urlparse_netloc. cbv zeta.
  repeat match goal with
         | |- context [if ?b then _ else _] => destruct b
         end; try reflexivity.
  apply replace_go_erase_forallb, take_netloc_not_slash.
Qed.

(** C4, as stated, fails twice.  An occurrence of "www." that is not leading
    is removed as well; and the function is not idempotent, since its result
    is a bare host, in which the parser finds no network location. *)
Lemma clean_domain_inner_www_and_second_pass :
  Urllib.urlparse_netloc (nfkc offline) (bracketed_host_ok offline)
    (lit "https://shop.www.example.com/") = Some (lit "shop.www.example.com")
  /\ strip_leading_www (lit "shop.www.example.com") = lit "shop.www.example.com"
  /\ clean_domain offline (lit "https://shop.www.example.com/")
     = lit "shop.example.com"
  /\ clean_domain offline (lit "https://shop.www.example.com/")
     <> strip_leading_www (lit "shop.www.example.com")
  /\ clean_domain offline (lit "https://www.example.com/shop") = lit "example.com"
  /\ clean_domain offline (clean_domain offline (lit "https://www.example.com/shop"))
     = []
  /\ clean_domain offline (clean_domain offline (lit "https://www.example.com/shop"))
     <> clean_domain offline (lit "https://www.example.com/shop").
Proof. vm_compute. repeat split; try reflexivity; discriminate. Qed.

(** C4 (amended): when the parse of the URL yields a non-empty network
    location in which "www." occurs only as its prefix, [clean_domain]
    returns the location without that prefix, and a location without "www."
    is returned as it is; when the parse fails or yields no network location
    (as for the empty string) the result is the empty string, and no
    exception escapes; applied to its own result the function returns the
    empty string. *)
Theorem clean_domain_strips_www (w : world) (url : pystr) :
  (forall netloc,
      Urllib.urlparse_netloc (nfkc w) (bracketed_host_ok w) url = Some netloc ->
      netloc <> [] ->
      (occurs WWW netloc = false -> clean_domain w url = netloc)
      /\ (forall rest, netloc = WWW ++ rest -> occurs WWW rest = false ->
                       clean_domain w url = rest))
  /\ (Urllib.urlparse_netloc (nfkc w) (bracketed_host_ok w) url = None
      \/ Urllib.urlparse_netloc (nfkc w) (bracketed_host_ok w) url = Some [] ->
      clean_domain w url = [])
  /\ clean_domain w [] = []
  /\ clean_domain w (clean_domain w url) = [].
Proof.
  split; [|split; [|split]].
  - intros netloc Hp Hne. unfold clean_domain. rewrite Hp.
    destruct netloc as [|c n]; [congruence|]. cbn [truthy].
    split.
    + apply replace_no_occurrence.
    + intros rest -> Hrest. rewrite replace_www_leading.
      apply replace_no_occurrence, Hrest.
  - intros [H|H]; unfold clean_domain; rewrite H; reflexivity.
  - reflexivity.
  - unfold clean_domain at 1.
    rewrite urlparse_netloc_no_slash by apply clean_domain_not_slash.
    reflexivity.
Qed.

Lemma clean_domain_strips_www_witness :
  clean_domain offline (lit "https://www.example.com/shop") = lit "example.com".
Proof.
  apply (proj1 (clean_domain_strips_www offline
                  (lit "https://www.example.com/shop"))
           (lit "www.example.com")).
  - vm_compute. reflexivity.
  - vm_compute. discriminate.
  - reflexivity.
  - vm_compute. reflexivity.
Defined.

(** ** The script: one step at a time *)

Arguments lit : simpl never.
Arguments str_of_int : simpl never.
Opaque lit str_of_int.

Lemma extend_nil (tr : trace) : extend tr [] [] = tr.
Proof. destruct tr. unfold extend. simpl. rewrite !app_nil_r. reflexivity. Qed.

Lemma extend_extend (tr : trace) n1 u1 n2 u2 :
  extend (extend tr n1 u1) n2 u2 = extend tr (n1 ++ n2) (u1 ++ u2).
Proof. unfold extend. simpl. rewrite !app_assoc. reflexivity. Qed.

Lemma bind_ret {A B} (m : M A) (k : A -> M B) (tr tr' : trace) (a : A) :
  m tr = (Ret a, tr') -> bind m k tr = k a tr'.
Proof. intros H. unfold bind. rewrite H. reflexivity. Qed.

Lemma bind_raise {A B} (m : M A) (k : A -> M B) (tr tr' : trace) (e : exn) :
  m tr = (Raise e, tr') -> bind m k tr = (Raise e, tr').
Proof. intros H. unfold bind. rewrite H. reflexivity. Qed.

Lemma show_extend (e : ui_event) (tr : trace) :
  show e tr = (Ret tt, extend tr [] [e]).
Proof. unfold show, extend. rewrite app_nil_r. reflexivity. Qed.

Lemma issue_extend (e : net_event) (tr : trace) :
  issue e tr = (Ret tt, extend tr [e] []).
Proof. unfold issue, extend. rewrite app_nil_r. reflexivity. Qed.

Lemma ret_extend {A} (a : A) (tr : trace) : ret a tr = (Ret a, extend tr [] []).
Proof. rewrite extend_nil. reflexivity. Qed.

Lemma sidebar_extend (w : world) (f : form) (tr : trace) :
  sidebar w f tr = (Ret tt, extend tr [] (sidebar_ui w f)).
Proof.
  unfold sidebar_ui, sidebar, bind, st_info, st_warning, show, ret, extend,
    empty_trace.
  destruct tr as [n u].
  destruct (lang_choice f), (enable_en w), (target_min f >? target_max f);
    cbn [negb net ui snd app]; rewrite ?app_nil_r, <- ?app_assoc;
    reflexivity.
Qed.

Lemma str_or_nil (s : pystr) : str_or s [] = s.
Proof. destruct s; reflexivity. Qed.

Lemma get_openai_client_ready (w : world) (tr : trace) :
  client_ready w -> get_openai_client w tr = (Ret (Some (api_key w)), tr).
Proof.
  intros [Hk Hc]. unfold get_openai_client. fold (api_key w).
  rewrite Hk. cbn [negb]. unfold try_except, bind. rewrite Hc. reflexivity.
Qed.

Lemma call_openai_extend (w : world) (client model : pyval)
    (sys usr : pystr) (temp : Q) (maxt : Z) (tr : trace) :
  let call := {| call_model := model; call_system := sys; call_user := usr;
                 call_temperature := temp; call_max_tokens := maxt |} in
  let r := completion w (net tr) call in
  call_openai w client model sys usr temp maxt tr
  = (Ret (strip (raw_output r)),
     extend tr [NetCompletion call] (call_errors w r)).
Proof.
  intros call r. unfold call_openai, try_except, bind, issued, issue.
  cbn [net ui]. fold call. fold r.
  destruct r as [e|[c|]]; cbn [of_result raise ret default raw_output call_errors];
    unfold st_error, show, ret, extend; cbn [net ui];
    rewrite ?str_or_nil, ?app_nil_r; reflexivity.
Qed.

(** ** Logging *)

Section SheetOnly.

Context {A B : Type}.

Lemma sheet_only_ret (a : A) : sheet_only (ret a).
Proof.
  intros tr. exists (Ret a), []. rewrite extend_nil.
  repeat split; try reflexivity; discriminate.
Qed.

Lemma sheet_only_raise (e : exn) : sheet_only (@raise A e).
Proof.
  intros tr. exists (Raise e), []. rewrite extend_nil.
  repeat split; try reflexivity; discriminate.
Qed.

Lemma sheet_only_bind (m : M A) (k : A -> M B) :
  sheet_only m -> (forall a, sheet_only (k a)) -> sheet_only (bind m k).
Proof.
  intros Hm Hk tr. destruct (Hm tr) as (o & l1 & E & Ho & Hl).
  unfold bind. rewrite E. destruct o as [a|e|]; [| |congruence].
  - destruct (Hk a (extend tr l1 [])) as (o2 & l2 & E2 & Ho2 & Hl2).
    exists o2, (l1 ++ l2). rewrite E2, extend_extend.
    rewrite forallb_app, Hl, Hl2. auto.
  - exists (Raise e), l1. auto.
Qed.

End SheetOnly.

Lemma sheet_only_issue (e : net_event) :
  is_completion e = false -> sheet_only (issue e).
Proof.
  intros He tr. exists (Ret tt), [e]. rewrite issue_extend.
  split; [reflexivity|]. split; [discriminate|]. simpl. rewrite He. reflexivity.
Qed.

Lemma sheet_only_of_status (r : option exn) : sheet_only (of_status r).
Proof. destruct r; [apply sheet_only_raise | apply sheet_only_ret]. Qed.

Lemma sheet_only_of_result {A} (r : exn + A) : sheet_only (of_result r).
Proof. destruct r; [apply sheet_only_raise | apply sheet_only_ret]. Qed.

Lemma sheet_only_secrets_item (w : world) (key : string) :
  sheet_only (secrets_item w key).
Proof.
  unfold secrets_item.
  destruct (secrets w !! key); [apply sheet_only_ret | apply sheet_only_raise].
Qed.

Create HintDb sheet discriminated.
#[local] Hint Resolve sheet_only_ret sheet_only_raise sheet_only_of_status
  sheet_only_of_result sheet_only_secrets_item : sheet.

Lemma log_to_sheet_body_sheet_only (w : world)
    (kw url ct lang : pystr) (chars : Z) (model : pyval) :
  sheet_only (log_to_sheet_body w kw url ct lang chars model).
Proof.
  unfold log_to_sheet_body.
  apply sheet_only_bind; [auto with sheet|]. intros sheet_id.
  destruct (negb _); [auto with sheet|].
  repeat (apply sheet_only_bind;
          [first [ solve [auto with sheet]
                 | apply sheet_only_issue; reflexivity ]
          | intros ? ]).
  auto with sheet.
Qed.

(** An exception of the body is turned into a notice. *)
Lemma log_to_sheet_catches (w : world)
    (kw url ct lang : pystr) (chars : Z) (model : pyval)
    (tr tr' : trace) (e : exn) :
  log_to_sheet_body w kw url ct lang chars model tr = (Raise e, tr') ->
  log_to_sheet w kw url ct lang chars model tr
  = (Ret tt, extend tr' [] [StInfo (log_failed w e)]).
Proof.
  intros H. unfold log_to_sheet, try_except. rewrite H.
  apply show_extend.
Qed.

(** [log_to_sheet] always returns; it adds spreadsheet operations and at
    most one notice. *)
Lemma log_to_sheet_contained (w : world)
    (kw url ct lang : pystr) (chars : Z) (model : pyval) (tr : trace) :
  exists lnet lui,
    log_to_sheet w kw url ct lang chars model tr = (Ret tt, extend tr lnet lui)
    /\ forallb (fun e => negb (is_completion e)) lnet = true
    /\ forallb is_info lui = true.
Proof.
  destruct (log_to_sheet_body_sheet_only w kw url ct lang chars model tr)
    as (o & lnet & E & Ho & Hl).
  destruct o as [[]|e|]; [| |congruence].
  - exists lnet, []. unfold log_to_sheet, try_except. rewrite E. auto.
  - exists lnet, [StInfo (log_failed w e)].
    rewrite (log_to_sheet_catches _ _ _ _ _ _ _ _ _ _ E), extend_extend.
    rewrite app_nil_r. auto.
Qed.

(** ** [strip] *)

Lemma lstrip_head (s : pystr) (c : char) :
  head (lstrip s) = Some c -> py_isspace c = false.
Proof.
  induction s as [|d s IH]; simpl; [discriminate|].
  destruct (py_isspace d) eqn:E; [exact IH|].
  simpl. intros [= <-]. exact E.
Qed.

Lemma lstrip_fixed (s : pystr) :
  (forall c, head s = Some c -> py_isspace c = false) -> lstrip s = s.
Proof.
  destruct s as [|d s]; [reflexivity|]. intros H. simpl.
  rewrite (H d eq_refl). reflexivity.
Qed.

Lemma lstrip_suffix (s : pystr) : exists p, s = p ++ lstrip s.
Proof.
  induction s as [|d s [p IH]]; [exists []; reflexivity|]. simpl.
  destruct (py_isspace d).
  - exists (d :: p). simpl. rewrite <- IH. reflexivity.
  - exists []. reflexivity.
Qed.

Lemma lstrip_all_space (s : pystr) :
  forallb py_isspace s = true -> lstrip s = [].
Proof.
  induction s as [|d s IH]; [reflexivity|]. simpl.
  destruct (py_isspace d); [exact IH | discriminate].
Qed.

Lemma rstrip_prefix (s : pystr) : exists t, s = rstrip s ++ t.
Proof.
  unfold rstrip. destruct (lstrip_suffix (rev s)) as [p E].
  exists (rev p). rewrite <- rev_app_distr, <- E, rev_involutive. reflexivity.
Qed.

Lemma rstrip_idem (s : pystr) : rstrip (rstrip s) = rstrip s.
Proof.
  unfold rstrip. rewrite rev_involutive.
  rewrite (lstrip_fixed (lstrip (rev s))) by apply lstrip_head.
  reflexivity.
Qed.

Lemma strip_head (s : pystr) (c : char) :
  head (strip s) = Some c -> py_isspace c = false.
Proof.
  unfold strip. destruct (rstrip_prefix (lstrip s)) as [t E].
  intros H. apply (lstrip_head s). rewrite E.
  destruct (rstrip (lstrip s)); [discriminate H | exact H].
Qed.

Lemma strip_idem (s : pystr) : strip (strip s) = strip s.
Proof.
  unfold strip at 1. rewrite (lstrip_fixed (strip s)) by apply strip_head.
  apply rstrip_idem.
Qed.

Lemma strip_all_space (s : pystr) :
  forallb py_isspace s = true -> strip s = [].
Proof. intros H. unfold strip. rewrite (lstrip_all_space s H). reflexivity. Qed.

(** ** A run that reaches the presentation *)

Lemma truthy_nonempty (s : pystr) : s <> [] -> truthy s = true.
Proof. destruct s; [congruence | reflexivity]. Qed.

Lemma logging_then_present (w : world) (kw url ct lang : pystr)
    (model : pyval) (final : pystr) (lo hi : Z) (tr : trace) :
  exists lnet lui,
    forallb (fun e => negb (is_completion e)) lnet = true
    /\ forallb is_info lui = true
    /\ (try_except
          (log_to_sheet w kw url ct lang (char_count final) model)
          (fun e => st_info (log_failed w e)) ;;;
        (if out_of_range (char_count final) lo hi
         then st_warning (chars_warning (char_count final) lo hi)
         else st_success (chars_success (char_count final) lo hi)) ;;;
        show (ComponentsHtml (html_escape final)) ;;;
        show StDivider ;;;
        show (StMarkdown final)) tr
       = (Ret tt,
          extend tr lnet
            (lui ++ [if out_of_range (char_count final) lo hi
                     then StWarning (chars_warning (char_count final) lo hi)
                     else StSuccess (chars_success (char_count final) lo hi);
                     ComponentsHtml (html_escape final);
                     StDivider;
                     StMarkdown final])).
Proof.
  destruct (log_to_sheet_contained w kw url ct lang (char_count final) model tr)
    as (lnet & lui & E & Hn & Hu).
  exists lnet, lui. split; [exact Hn|]. split; [exact Hu|].
  assert (Et : try_except
                 (log_to_sheet w kw url ct lang (char_count final) model)
                 (fun e => st_info (log_failed w e)) tr
               = (Ret tt, extend tr lnet lui))
    by (unfold try_except; rewrite E; reflexivity).
  rewrite (bind_ret _ _ _ _ _ Et).
  assert (Es : forall t,
    (if out_of_range (char_count final) lo hi
     then st_warning (chars_warning (char_count final) lo hi)
     else st_success (chars_success (char_count final) lo hi)) t
    = (Ret tt,
       extend t []
         [if out_of_range (char_count final) lo hi
          then StWarning (chars_warning (char_count final) lo hi)
          else StSuccess (chars_success (char_count final) lo hi)])).
  { intros t. destruct (out_of_range _ _ _); apply show_extend. }
  rewrite (bind_ret _ _ _ _ _ (Es _)).
  rewrite (bind_ret _ _ _ _ _ (show_extend _ _)).
  rewrite (bind_ret _ _ _ _ _ (show_extend _ _)).
  rewrite show_extend, !extend_extend. rewrite !app_nil_r.
  rewrite <- ?app_assoc. reflexivity.
Qed.

Lemma run_present (w : world) (f : form) (tr : trace) :
  reaches_first_call w f -> net tr = [] -> first_result w f <> [] ->
  exists lnet lui,
    forallb (fun e => negb (is_completion e)) lnet = true
    /\ forallb is_info lui = true
    /\ run w f tr
       = (Ret tt,
          extend tr
            (NetCompletion (first_call w f)
             :: (if needs_fix w f
                 then [NetCompletion (corrective_call w f)] else [])
             ++ lnet)
            (call_errors w (first_reply w f)
             ++ (if needs_fix w f
                 then call_errors w (corrective_reply w f) else [])
             ++ lui
             ++ [final_status w f;
                 ComponentsHtml (html_escape (final_text w f));
                 StDivider;
                 StMarkdown (final_text w f)])).
Proof.
  intros (Hs & Hk & Hc) Hnet Hne.
  unfold run. rewrite Hs, (truthy_nonempty _ Hk). cbn [negb].
  destruct (provider f).
  rewrite (bind_ret _ _ _ _ _ (get_openai_client_ready w tr Hc)).
  pose proof (call_openai_extend w (api_key w) (MODEL_DEFAULT w)
                (system_prompt_of f) (user_prompt_of w f) (temperature f)
                1000 tr) as H1.
  cbv zeta in H1. rewrite Hnet in H1.
  fold (first_call w f) in H1. fold (first_reply w f) in H1.
  fold (first_result w f) in H1.
  rewrite (bind_ret _ _ _ _ _ H1). clear H1.
  rewrite (truthy_nonempty _ Hne). cbn [negb].
  fold (needs_fix w f).
  assert (Hcall :
    (if needs_fix w f
     then call_openai w (api_key w) (MODEL_DEFAULT w) (system_prompt_of f)
            (first_result w f ++ [LF; LF] ++ fix_prompt f) (temperature f) 1000
     else ret (first_result w f))
      (extend tr [NetCompletion (first_call w f)]
         (call_errors w (first_reply w f)))
    = (Ret (strip (raw_output (last_reply w f))),
       extend tr
         (NetCompletion (first_call w f)
          :: (if needs_fix w f
              then [NetCompletion (corrective_call w f)] else []))
         (call_errors w (first_reply w f)
          ++ (if needs_fix w f
              then call_errors w (corrective_reply w f) else [])))).
  { unfold last_reply. destruct (needs_fix w f).
    - rewrite call_openai_extend. cbv zeta. cbn [extend net].
      rewrite Hnet. cbn [app].
      fold (corrective_call w f). fold (corrective_reply w f).
      unfold extend. cbn [net ui]. rewrite <- !app_assoc. reflexivity.
    - unfold ret. rewrite app_nil_r. reflexivity. }
  rewrite (bind_ret _ _ _ _ _ Hcall). clear Hcall.
  rewrite str_or_nil, strip_idem. fold (final_text w f).
  match goal with
  | |- context [bind _ _ ?t] =>
    destruct (logging_then_present w (keyword f) (url f)
                (content_type_str (content_type f))
                (language_str (language w f)) (MODEL_DEFAULT w)
                (final_text w f) (target_min f) (target_max f) t)
      as (lnet & lui & Hn & Hu & E)
  end.
  exists lnet, lui. split; [exact Hn|]. split; [exact Hu|].
  rewrite E, extend_extend. unfold final_status.
  rewrite <- ?app_assoc. reflexivity.
Qed.

Lemma script_present (w : world) (f : form) :
  reaches_first_call w f -> first_result w f <> [] ->
  exists lnet lui,
    forallb (fun e => negb (is_completion e)) lnet = true
    /\ forallb is_info lui = true
    /\ script w f
       = (Ret tt,
          {| net := NetCompletion (first_call w f)
                    :: (if needs_fix w f
                        then [NetCompletion (corrective_call w f)] else [])
                    ++ lnet;
             ui := sidebar_ui w f
                   ++ call_errors w (first_reply w f)
                   ++ (if needs_fix w f
                       then call_errors w (corrective_reply w f) else [])
                   ++ lui
                   ++ [final_status w f;
                       ComponentsHtml (html_escape (final_text w f));
                       StDivider;
                       StMarkdown (final_text w f)] |}).
Proof.
  intros Hr Hne. unfold script.
  rewrite (bind_ret _ _ _ _ _ (sidebar_extend w f empty_trace)).
  destruct (run_present w f (extend empty_trace [] (sidebar_ui w f)) Hr
              eq_refl Hne) as (lnet & lui & Hn & Hu & E).
  exists lnet, lui. split; [exact Hn|]. split; [exact Hu|].
  rewrite E, extend_extend. reflexivity.
Qed.

(** An empty first result stops the run after the first call. *)
Lemma script_first_empty (w : world) (f : form) :
  reaches_first_call w f -> first_result w f = [] ->
  script w f
  = (Stop,
     {| net := [NetCompletion (first_call w f)];
        ui := sidebar_ui w f ++ call_errors w (first_reply w f) |}).
Proof.
  intros (Hs & Hk & Hc) He. unfold script.
  rewrite (bind_ret _ _ _ _ _ (sidebar_extend w f empty_trace)).
  unfold run. rewrite Hs, (truthy_nonempty _ Hk). cbn [negb].
  destruct (provider f).
  rewrite (bind_ret _ _ _ _ _ (get_openai_client_ready w _ Hc)).
  pose proof (call_openai_extend w (api_key w) (MODEL_DEFAULT w)
                (system_prompt_of f) (user_prompt_of w f) (temperature f)
                1000 (extend empty_trace [] (sidebar_ui w f))) as H1.
  cbv zeta in H1. cbn [extend net empty_trace app] in H1.
  fold (first_call w f) in H1. fold (first_reply w f) in H1.
  fold (first_result w f) in H1.
  rewrite (bind_ret _ _ _ _ _ H1), He. reflexivity.
Qed.

(** A blank keyword stops the run before anything else. *)
Lemma script_blank_keyword (w : world) (f : form) :
  start f = true -> strip (keyword f) = [] ->
  script w f
  = (Stop,
     {| net := [];
        ui := sidebar_ui w f
              ++ [StWarning (lit "Inserisci almeno la keyword principale.")] |}).
Proof.
  intros Hs Hk. unfold script.
  rewrite (bind_ret _ _ _ _ _ (sidebar_extend w f empty_trace)).
  unfold run. rewrite Hs, Hk. cbn [truthy negb].
  unfold st_warning. rewrite (bind_ret _ _ _ _ _ (show_extend _ _)).
  reflexivity.
Qed.

Lemma out_of_range_iff (cc lo hi : Z) :
  out_of_range cc lo hi = false <-> lo <= cc <= hi.
Proof. unfold out_of_range. rewrite orb_false_iff. lia. Qed.

Lemma needs_fix_in_window (w : world) (f : form) :
  needs_fix w f = false <-> in_window f (char_count (first_result w f)).
Proof. apply out_of_range_iff. Qed.

Lemma completions_none (l : list net_event) :
  forallb (fun e => negb (is_completion e)) l = true -> completions l = [].
Proof.
  induction l as [|e l IH]; [reflexivity|]. simpl.
  intros H. apply andb_true_iff in H as [He Hl].
  unfold completions. destruct e; try discriminate He; apply IH, Hl.
Qed.

Lemma completions_present (w : world) (f : form) (lnet : list net_event) :
  forallb (fun e => negb (is_completion e)) lnet = true ->
  completions
    (NetCompletion (first_call w f)
     :: (if needs_fix w f then [NetCompletion (corrective_call w f)] else [])
     ++ lnet)
  = first_call w f
    :: (if needs_fix w f then [corrective_call w f] else []).
Proof.
  intros H. unfold completions. cbn [omap list_omap].
  rewrite omap_app. fold (completions lnet).
  rewrite (completions_none lnet H), app_nil_r.
  destruct (needs_fix w f); reflexivity.
Qed.

(** ** The corrective call *)

(** C1, as stated for every run, fails when the first call returns nothing:
    the count of the empty result, 0, is outside the window, yet the run
    stops and no corrective call is issued. *)
Lemma empty_first_result_no_corrective_call :
  reaches_first_call (deployment key_only [] false) request
  /\ first_result (deployment key_only [] false) request = []
  /\ ~ in_window request
         (char_count (first_result (deployment key_only [] false) request))
  /\ fst (script (deployment key_only [] false) request) = Stop
  /\ completions (net (snd (script (deployment key_only [] false) request)))
     = [first_call (deployment key_only [] false) request].
Proof.
  assert (Hr : reaches_first_call (deployment key_only [] false) request).
  { unfold reaches_first_call, client_ready.
    split; [|split; [|split]]; vm_compute; try reflexivity; discriminate. }
  assert (He : first_result (deployment key_only [] false) request = [])
    by (vm_compute; reflexivity).
  split; [exact Hr|]. split; [exact He|]. split.
  - rewrite He. unfold in_window, request, submitted, default_form.
    cbn [target_min target_max]. unfold char_count, len. simpl length. lia.
  - rewrite (script_first_empty _ _ Hr He). split; reflexivity.
Qed.

(** C1 (amended): for every run whose first completion result is not empty,
    a count outside the inclusive window leads to exactly one corrective
    call, with the same system prompt and with the previous text, a blank
    line and the corrective instruction as user prompt; the text that is
    enforced, counted and shown is then the corrective result, whatever its
    length; a count inside the window leads to no corrective call. *)
Theorem corrective_call_at_most_once (w : world) (f : form) :
  reaches_first_call w f -> first_result w f <> [] ->
  (~ in_window f (char_count (first_result w f)) ->
   completions (net (snd (script w f)))
   = [first_call w f; corrective_call w f]
   /\ call_system (corrective_call w f) = call_system (first_call w f)
   /\ call_user (corrective_call w f)
      = first_result w f ++ [LF; LF] ++ fix_prompt f
   /\ final_text w f
      = enforce_length (corrective_result w f) (target_min f) (target_max f)
   /\ In (final_status w f) (ui (snd (script w f)))
   /\ last (ui (snd (script w f))) = Some (StMarkdown (final_text w f)))
  /\ (in_window f (char_count (first_result w f)) ->
      completions (net (snd (script w f))) = [first_call w f]).
Proof.
  intros Hr Hne.
  destruct (script_present w f Hr Hne) as (lnet & lui & Hn & _ & E).
  rewrite E. cbn [snd net ui]. rewrite (completions_present w f lnet Hn).
  split.
  - intros Hout.
    assert (Hfix : needs_fix w f = true).
    { destruct (needs_fix w f) eqn:Hf; [reflexivity|].
      apply needs_fix_in_window in Hf. contradiction. }
    rewrite Hfix. split; [reflexivity|].
    split; [unfold corrective_call, first_call; reflexivity|].
    split; [unfold corrective_call; reflexivity|]. split.
    + unfold final_text, last_reply. rewrite Hfix. reflexivity.
    + split.
      * rewrite !in_app_iff. do 4 right. left. reflexivity.
      * rewrite !app_assoc.
        change [final_status w f; ComponentsHtml (html_escape (final_text w f));
                StDivider; StMarkdown (final_text w f)]
          with ([final_status w f; ComponentsHtml (html_escape (final_text w f));
                 StDivider] ++ [StMarkdown (final_text w f)]).
        rewrite app_assoc. apply last_snoc.
  - intros Hin. apply needs_fix_in_window in Hin. rewrite Hin. reflexivity.
Qed.

Lemma corrective_call_at_most_once_witness :
  completions (net (snd (script short_then_fitting request)))
  = [first_call short_then_fitting request;
     corrective_call short_then_fitting request].
Proof.
  assert (Hr : reaches_first_call short_then_fitting request).
  { unfold reaches_first_call, client_ready.
    split; [|split; [|split]]; vm_compute; try reflexivity; discriminate. }
  assert (Hne : first_result short_then_fitting request <> [])
    by (vm_compute; discriminate).
  assert (Hout : ~ in_window request
                     (char_count (first_result short_then_fitting request)))
    by (vm_compute; intros [H _]; apply H; reflexivity).
  exact (proj1 (proj1 (corrective_call_at_most_once
                         short_then_fitting request Hr Hne) Hout)).
Defined.

(** ** Validation of the keyword *)

(** C5: a request whose keyword is empty or made of whitespace only stops
    with the warning about the keyword; no completion call and no
    spreadsheet operation is issued. *)
Theorem blank_keyword_stops_without_network (w : world) (f : form) :
  start f = true -> forallb py_isspace (keyword f) = true ->
  script w f
  = (Stop,
     {| net := [];
        ui := sidebar_ui w f
              ++ [StWarning (lit "Inserisci almeno la keyword principale.")] |}).
Proof.
  intros Hs Hk. apply script_blank_keyword; [exact Hs|].
  apply strip_all_space, Hk.
Qed.

Lemma blank_keyword_stops_without_network_witness :
  script offline (submitted default_form (lit "   "))
  = (Stop,
     {| net := [];
        ui := sidebar_ui offline (submitted default_form (lit "   "))
              ++ [StWarning (lit "Inserisci almeno la keyword principale.")] |}).
Proof.
  assert (Hs : start (submitted default_form (lit "   ")) = true)
    by reflexivity.
  assert (Hk : forallb py_isspace (keyword (submitted default_form (lit "   ")))
               = true) by (vm_compute; reflexivity).
  exact (blank_keyword_stops_without_network offline
           (submitted default_form (lit "   ")) Hs Hk).
Defined.

(** ** Empty results *)

Lemma enforce_length_nil (min_c max_c : Z) : enforce_length [] min_c max_c = [].
Proof.
  unfold enforce_length. destruct (len [] <=? max_c); [reflexivity|].
  unfold slice_to. destruct (0 <=? max_c); rewrite take_nil; reflexivity.
Qed.

(** C7: an empty result of the first call stops the run after that call,
    before enforcement, logging and presentation; an empty result of the
    corrective call does not: the run goes on to enforce, log and present
    the empty text, whose count 0 is reported. *)
Theorem empty_result_fatal_only_at_first_call (w : world) (f : form) :
  reaches_first_call w f ->
  (first_result w f = [] ->
   script w f
   = (Stop,
      {| net := [NetCompletion (first_call w f)];
         ui := sidebar_ui w f ++ call_errors w (first_reply w f) |}))
  /\ (first_result w f <> [] ->
      ~ in_window f (char_count (first_result w f)) ->
      corrective_result w f = [] ->
      form_accepts f ->
      fst (script w f) = Ret tt
      /\ final_text w f = []
      /\ exists shown,
           ui (snd (script w f))
           = shown ++ [StWarning (chars_warning 0 (target_min f) (target_max f));
                       ComponentsHtml [];
                       StDivider;
                       StMarkdown []]).
Proof.
  intros Hr. split; [apply script_first_empty, Hr|].
  intros Hne Hout Hcorr [[Hlo _] _].
  assert (Hfix : needs_fix w f = true).
  { destruct (needs_fix w f) eqn:Hf; [reflexivity|].
    apply needs_fix_in_window in Hf. contradiction. }
  assert (Hfinal : final_text w f = []).
  { unfold final_text, last_reply. rewrite Hfix.
    fold (corrective_result w f). rewrite Hcorr. apply enforce_length_nil. }
  destruct (script_present w f Hr Hne) as (lnet & lui & _ & _ & E).
  rewrite E. cbn [fst snd ui]. split; [reflexivity|]. split; [exact Hfinal|].
  exists (sidebar_ui w f ++ call_errors w (first_reply w f)
          ++ (if needs_fix w f then call_errors w (corrective_reply w f) else [])
          ++ lui).
  unfold final_status. rewrite Hfinal.
  assert (Hw : out_of_range (char_count []) (target_min f) (target_max f) = true).
  { unfold out_of_range, char_count, len. simpl length.
    apply orb_true_iff. left. apply Z.ltb_lt. simpl. lia. }
  rewrite Hw. rewrite <- ?app_assoc. reflexivity.
Qed.

Lemma empty_result_fatal_only_at_first_call_witness :
  fst (script short_then_error request) = Ret tt
  /\ final_text short_then_error request = []
  /\ exists shown,
       ui (snd (script short_then_error request))
       = shown ++ [StWarning (chars_warning 0 (target_min request)
                                (target_max request));
                   ComponentsHtml [];
                   StDivider;
                   StMarkdown []].
Proof.
  assert (Hr : reaches_first_call short_then_error request).
  { unfold reaches_first_call, client_ready.
    split; [|split; [|split]]; vm_compute; try reflexivity; discriminate. }
  assert (Hne : first_result short_then_error request <> [])
    by (vm_compute; discriminate).
  assert (Hout : ~ in_window request
                     (char_count (first_result short_then_error request)))
    by (vm_compute; intros [H _]; apply H; reflexivity).
  assert (Hcorr : corrective_result short_then_error request = [])
    by (vm_compute; reflexivity).
  assert (Hform : form_accepts request)
    by (vm_compute; repeat split; discriminate).
  exact (proj2 (empty_result_fatal_only_at_first_call
                  short_then_error request Hr) Hne Hout Hcorr Hform).
Defined.

(** ** Missing logging configuration *)

(** C8, as stated, fails when the sheet id is the missing part: the lookup
    raises, and the handler of [log_to_sheet] shows a notice. *)
Lemma missing_sheet_id_is_reported :
  secrets (deployment no_sheet_id [] true) !! "LOG_SHEET_ID" = None
  /\ log_to_sheet (deployment no_sheet_id [] true)
       (lit "frigoriferi") [] (lit "Listing") (lit "Italiano") 520
       (VStr (lit "gpt-4o-mini")) empty_trace
     = (Ret tt,
        {| net := [];
           ui := [StInfo (log_failed (deployment no_sheet_id [] true)
                            (KeyError "LOG_SHEET_ID"))] |})
  /\ ui (snd (log_to_sheet (deployment no_sheet_id [] true)
                (lit "frigoriferi") [] (lit "Listing") (lit "Italiano") 520
                (VStr (lit "gpt-4o-mini")) empty_trace))
     <> [].
Proof.
  split; [vm_compute; reflexivity|].
  split; [vm_compute; reflexivity|].
  vm_compute. discriminate.
Qed.

(** C8 (amended): when the sheet id is configured and the service-account
    credentials are absent (or empty), [log_to_sheet] does nothing: no
    remote operation, no message.  When the sheet id is absent, it issues
    no remote operation either, hence no append, and shows the notice that
    the log was not recorded. *)
Theorem log_to_sheet_without_configuration (w : world)
    (kw url ct lang : pystr) (chars : Z) (model : pyval) (tr : trace) :
  (secrets w !! "LOG_SHEET_ID" <> None ->
   val_truthy (secrets_get w "gcp_service_account" VNone) = false ->
   log_to_sheet w kw url ct lang chars model tr = (Ret tt, tr))
  /\ (secrets w !! "LOG_SHEET_ID" = None ->
      log_to_sheet w kw url ct lang chars model tr
      = (Ret tt,
         {| net := net tr;
            ui := ui tr ++ [StInfo (log_failed w (KeyError "LOG_SHEET_ID"))] |})).
Proof.
  split.
  - intros Hid Hsa.
    unfold log_to_sheet, try_except, log_to_sheet_body, bind, secrets_item.
    destruct (secrets w !! "LOG_SHEET_ID") as [sheet_id|]; [|congruence].
    cbn [ret]. rewrite Hsa. reflexivity.
  - intros Hid.
    unfold log_to_sheet, try_except, log_to_sheet_body, bind, secrets_item.
    rewrite Hid. reflexivity.
Qed.

Lemma log_to_sheet_without_configuration_witness :
  log_to_sheet (deployment sheet_id_only [] true)
    (lit "frigoriferi") [] (lit "Listing") (lit "Italiano") 520
    (VStr (lit "gpt-4o-mini")) empty_trace
  = (Ret tt, empty_trace)
  /\ log_to_sheet (deployment no_sheet_id [] true)
       (lit "frigoriferi") [] (lit "Listing") (lit "Italiano") 520
       (VStr (lit "gpt-4o-mini")) empty_trace
     = (Ret tt,
        {| net := net empty_trace;
           ui := ui empty_trace
                 ++ [StInfo (log_failed (deployment no_sheet_id [] true)
                               (KeyError "LOG_SHEET_ID"))] |}).
Proof.
  assert (Hid : secrets (deployment sheet_id_only [] true) !! "LOG_SHEET_ID"
                <> None) by (vm_compute; discriminate).
  assert (Hsa : val_truthy (secrets_get (deployment sheet_id_only [] true)
                              "gcp_service_account" VNone) = false)
    by (vm_compute; reflexivity).
  assert (Hno : secrets (deployment no_sheet_id [] true) !! "LOG_SHEET_ID"
                = None) by (vm_compute; reflexivity).
  exact (conj
           (proj1 (log_to_sheet_without_configuration
                     (deployment sheet_id_only [] true)
                     (lit "frigoriferi") [] (lit "Listing") (lit "Italiano") 520
                     (VStr (lit "gpt-4o-mini")) empty_trace) Hid Hsa)
           (proj2 (log_to_sheet_without_configuration
                     (deployment no_sheet_id [] true)
                     (lit "frigoriferi") [] (lit "Listing") (lit "Italiano") 520
                     (VStr (lit "gpt-4o-mini")) empty_trace) Hno)).
Defined.

(** ** Logging failures *)

Section SameOutsideLogging.

Variables w1 w2 : world.
Hypothesis same : same_outside_logging w1 w2.

Lemma same_secrets_get (k : string) (d : pyval) :
  is_logging_key k = false -> secrets_get w1 k d = secrets_get w2 k d.
Proof.
  intros Hk. unfold secrets_get. destruct same as [Hs _].
  rewrite (Hs k Hk). reflexivity.
Qed.

Lemma same_model : MODEL_DEFAULT w1 = MODEL_DEFAULT w2.
Proof. apply same_secrets_get. reflexivity. Qed.

Lemma same_enable_en : enable_en w1 = enable_en w2.
Proof. unfold enable_en. f_equal. apply same_secrets_get. reflexivity. Qed.

Lemma same_api_key : api_key w1 = api_key w2.
Proof.
  unfold api_key, getenv. destruct same as (_ & He & _).
  rewrite He. f_equal. apply same_secrets_get. reflexivity.
Qed.

Lemma same_clean_domain (u : pystr) : clean_domain w1 u = clean_domain w2 u.
Proof.
  unfold clean_domain. destruct same as (_ & _ & _ & Hn & Hb & _).
  rewrite Hn, Hb. reflexivity.
Qed.

Lemma same_language (f : form) : language w1 f = language w2 f.
Proof. unfold language. rewrite same_enable_en. reflexivity. Qed.

Lemma same_sidebar_ui (f : form) : sidebar_ui w1 f = sidebar_ui w2 f.
Proof. unfold sidebar_ui, sidebar. rewrite same_enable_en. reflexivity. Qed.

Lemma same_first_call (f : form) : first_call w1 f = first_call w2 f.
Proof.
  unfold first_call, user_prompt_of.
  rewrite same_model, same_clean_domain, same_language. reflexivity.
Qed.

Lemma same_first_reply (f : form) : first_reply w1 f = first_reply w2 f.
Proof.
  unfold first_reply. destruct same as (_ & _ & _ & _ & _ & _ & Hc).
  rewrite Hc, same_first_call. reflexivity.
Qed.

Lemma same_first_result (f : form) : first_result w1 f = first_result w2 f.
Proof. unfold first_result. rewrite same_first_reply. reflexivity. Qed.

Lemma same_corrective_call (f : form) :
  corrective_call w1 f = corrective_call w2 f.
Proof.
  unfold corrective_call. rewrite same_model, same_first_result. reflexivity.
Qed.

Lemma same_corrective_reply (f : form) :
  corrective_reply w1 f = corrective_reply w2 f.
Proof.
  unfold corrective_reply. destruct same as (_ & _ & _ & _ & _ & _ & Hc).
  rewrite Hc, same_first_call, same_corrective_call. reflexivity.
Qed.

Lemma same_needs_fix (f : form) : needs_fix w1 f = needs_fix w2 f.
Proof. unfold needs_fix. rewrite same_first_result. reflexivity. Qed.

Lemma same_final_text (f : form) : final_text w1 f = final_text w2 f.
Proof.
  unfold final_text, last_reply.
  rewrite same_needs_fix, same_corrective_reply, same_first_reply.
  reflexivity.
Qed.

Lemma same_final_status (f : form) : final_status w1 f = final_status w2 f.
Proof. unfold final_status. rewrite same_final_text. reflexivity. Qed.

Lemma same_call_errors (r : exn + option pystr) :
  call_errors w1 r = call_errors w2 r.
Proof.
  unfold call_errors. destruct same as (_ & _ & Hs & _).
  rewrite Hs. reflexivity.
Qed.

Lemma same_reaches_first_call (f : form) :
  reaches_first_call w1 f -> reaches_first_call w2 f.
Proof.
  unfold reaches_first_call, client_ready.
  destruct same as (_ & _ & _ & _ & _ & Ho & _).
  rewrite same_api_key, Ho. tauto.
Qed.

End SameOutsideLogging.

Lemma non_info_app (a b : list ui_event) :
  non_info (a ++ b) = non_info a ++ non_info b.
Proof. apply filter_app. Qed.

Lemma non_info_infos (l : list ui_event) :
  forallb is_info l = true -> non_info l = [].
Proof.
  induction l as [|e l IH]; [reflexivity|]. simpl. intros H.
  apply andb_true_iff in H as [He Hl]. unfold non_info.
  rewrite filter_cons. rewrite He. cbn [negb].
  destruct (decide (false = true)) as [Hd|_]; [discriminate Hd|].
  apply IH, Hl.
Qed.

Lemma non_info_present (w : world) (f : form) (lui : list ui_event) :
  forallb is_info lui = true ->
  non_info
    (sidebar_ui w f
     ++ call_errors w (first_reply w f)
     ++ (if needs_fix w f then call_errors w (corrective_reply w f) else [])
     ++ lui
     ++ [final_status w f; ComponentsHtml (html_escape (final_text w f));
         StDivider; StMarkdown (final_text w f)])
  = non_info (sidebar_ui w f)
    ++ non_info (call_errors w (first_reply w f))
    ++ non_info (if needs_fix w f
                 then call_errors w (corrective_reply w f) else [])
    ++ non_info [final_status w f;
                 ComponentsHtml (html_escape (final_text w f));
                 StDivider; StMarkdown (final_text w f)].
Proof.
  intros H. rewrite !non_info_app, (non_info_infos lui H). reflexivity.
Qed.

(** C9: in a run that reaches the logging stage, an exception raised while
    logging is caught and shown as a notice, the run ends normally, and what
    the page reports apart from notices (the status with the final count,
    the final text) is the same as in any world that differs only in what
    logging depends on, in particular one where logging succeeds. *)
Theorem logging_failure_contained (w1 w2 : world) (f : form) :
  same_outside_logging w1 w2 ->
  reaches_first_call w1 f -> first_result w1 f <> [] ->
  fst (script w1 f) = Ret tt
  /\ fst (script w2 f) = Ret tt
  /\ non_info (ui (snd (script w1 f))) = non_info (ui (snd (script w2 f)))
  /\ In (final_status w1 f) (non_info (ui (snd (script w1 f))))
  /\ (forall kw url ct lang chars model tr tr' e,
        log_to_sheet_body w1 kw url ct lang chars model tr = (Raise e, tr') ->
        log_to_sheet w1 kw url ct lang chars model tr
        = (Ret tt, extend tr' [] [StInfo (log_failed w1 e)])).
Proof.
  intros Hsame Hr1 Hne1.
  assert (Hr2 : reaches_first_call w2 f)
    by (apply (same_reaches_first_call w1 w2 Hsame), Hr1).
  assert (Hne2 : first_result w2 f <> [])
    by (rewrite <- (same_first_result w1 w2 Hsame); exact Hne1).
  destruct (script_present w1 f Hr1 Hne1) as (n1 & u1 & _ & Hu1 & E1).
  destruct (script_present w2 f Hr2 Hne2) as (n2 & u2 & _ & Hu2 & E2).
  rewrite E1, E2. cbn [fst snd ui].
  split; [reflexivity|]. split; [reflexivity|].
  rewrite (non_info_present w1 f u1 Hu1), (non_info_present w2 f u2 Hu2).
  split.
  - rewrite <- (same_sidebar_ui w1 w2 Hsame), <- (same_first_reply w1 w2 Hsame),
      <- (same_needs_fix w1 w2 Hsame), <- (same_corrective_reply w1 w2 Hsame),
      <- (same_final_status w1 w2 Hsame), <- (same_final_text w1 w2 Hsame),
      <- !(same_call_errors w1 w2 Hsame).
    reflexivity.
  - split.
    + rewrite !in_app_iff. do 3 right.
      unfold non_info. rewrite filter_cons.
      assert (Hs : is_info (final_status w1 f) = false)
        by (unfold final_status; destruct (out_of_range _ _ _); reflexivity).
      rewrite Hs. cbn [negb].
      destruct (decide (true = true)) as [_|Hd]; [|congruence].
      left. reflexivity.
    + intros kw url ct lang chars model tr tr' e.
      apply log_to_sheet_catches.
Qed.

Lemma logging_failure_contained_witness :
  fst (script logging_down request) = Ret tt
  /\ fst (script logging_up request) = Ret tt
  /\ non_info (ui (snd (script logging_down request)))
     = non_info (ui (snd (script logging_up request))).
Proof.
  assert (Hsame : same_outside_logging logging_down logging_up).
  { unfold same_outside_logging. repeat split; reflexivity. }
  assert (Hr : reaches_first_call logging_down request).
  { unfold reaches_first_call, client_ready.
    split; [|split; [|split]]; vm_compute; try reflexivity; discriminate. }
  assert (Hne : first_result logging_down request <> [])
    by (vm_compute; discriminate).
  pose proof (logging_failure_contained logging_down logging_up request
                Hsame Hr Hne) as (H1 & H2 & H3 & _).
  exact (conj H1 (conj H2 H3)).
Defined.

(** In the deployment whose spreadsheet is down the failure is shown as a
    notice, after which the status and the text follow. *)
Example logging_down_shows_notice :
  exists shown,
    ui (snd (script logging_down request))
    = shown
      ++ [StInfo (log_failed logging_down (LibraryError (lit "unreachable")));
          StSuccess (chars_success 521 500 600);
          ComponentsHtml fitting_text;
          StDivider;
          StMarkdown fitting_text].
Proof. exists []. vm_compute. reflexivity. Qed.

(** ** What is presented *)

(** C10: in a run that reaches the presentation, the count in the status
    message is the length of the text that is displayed and offered for
    copying; that text is the stripped model output after length
    enforcement; it is at most [target_max] long, so that a warning can
    only report a text shorter than [target_min]. *)
Theorem presented_text_counted_and_bounded (w : world) (f : form) :
  reaches_first_call w f -> first_result w f <> [] -> form_accepts f ->
  (exists shown,
     ui (snd (script w f))
     = shown ++ [final_status w f;
                 ComponentsHtml (html_escape (final_text w f));
                 StDivider;
                 StMarkdown (final_text w f)])
  /\ (final_status w f
      = StSuccess (chars_success (len (final_text w f))
                     (target_min f) (target_max f))
      \/ final_status w f
         = StWarning (chars_warning (len (final_text w f))
                        (target_min f) (target_max f))
         /\ len (final_text w f) < target_min f)
  /\ final_text w f
     = enforce_length (strip (raw_output (last_reply w f)))
         (target_min f) (target_max f)
  /\ len (final_text w f) <= target_max f.
Proof.
  intros Hr Hne [_ [Hhi _]].
  assert (Hb : len (final_text w f) <= target_max f)
    by (apply enforce_length_bound; lia).
  split.
  - destruct (script_present w f Hr Hne) as (lnet & lui & _ & _ & E).
    rewrite E. cbn [snd ui].
    exists (sidebar_ui w f ++ call_errors w (first_reply w f)
            ++ (if needs_fix w f
                then call_errors w (corrective_reply w f) else [])
            ++ lui).
    rewrite <- ?app_assoc. reflexivity.
  - split; [|split; [reflexivity | exact Hb]].
    unfold final_status, char_count.
    destruct (out_of_range (len (final_text w f)) (target_min f) (target_max f))
      eqn:Ho; [right | left; reflexivity].
    split; [reflexivity|].
    unfold out_of_range in Ho. apply orb_true_iff in Ho as [Ho|Ho]; lia.
Qed.

Lemma presented_text_counted_and_bounded_witness :
  final_text short_then_fitting request
  = enforce_length
      (strip (raw_output (last_reply short_then_fitting request)))
      (target_min request) (target_max request)
  /\ len (final_text short_then_fitting request) <= target_max request.
Proof.
  assert (Hr : reaches_first_call short_then_fitting request).
  { unfold reaches_first_call, client_ready.
    split; [|split; [|split]]; vm_compute; try reflexivity; discriminate. }
  assert (Hne : first_result short_then_fitting request <> [])
    by (vm_compute; discriminate).
  assert (Hform : form_accepts request)
    by (vm_compute; repeat split; discriminate).
  exact (proj2 (proj2 (presented_text_counted_and_bounded
                         short_then_fitting request Hr Hne Hform))).
Defined.

(** * Further properties of the script *)

(** ** The client *)

Lemma get_openai_client_no_key (w : world) (tr : trace) :
  val_truthy (api_key w) = false ->
  get_openai_client w tr = (Ret None, extend tr [] [missing_key_error]).
Proof.
  intros Hk. unfold get_openai_client. fold (api_key w). rewrite Hk.
  cbn [negb]. unfold st_error.
  rewrite (bind_ret _ _ _ _ _ (show_extend _ tr)). reflexivity.
Qed.

Lemma get_openai_client_init_error (w : world) (tr : trace) (e : exn) :
  val_truthy (api_key w) = true -> openai_client w (api_key w) = Some e ->
  get_openai_client w tr = (Ret None, extend tr [] [client_init_error w e]).
Proof.
  intros Hk He. unfold get_openai_client. fold (api_key w). rewrite Hk.
  cbn [negb]. unfold try_except at 1, bind at 1. rewrite He.
  cbn [of_status raise]. unfold st_error.
  rewrite (bind_ret _ _ _ _ _ (show_extend _ tr)). reflexivity.
Qed.

(** Where a started run with a keyword stands before the first call. *)
Lemma script_no_client (w : world) (f : form) (shown : ui_event) :
  start f = true -> strip (keyword f) <> [] ->
  (forall tr, get_openai_client w tr = (Ret None, extend tr [] [shown])) ->
  script w f = (Stop, {| net := []; ui := sidebar_ui w f ++ [shown] |}).
Proof.
  intros Hs Hk Hc. unfold script.
  rewrite (bind_ret _ _ _ _ _ (sidebar_extend w f empty_trace)).
  unfold run. rewrite Hs, (truthy_nonempty _ Hk). cbn [negb].
  destruct (provider f).
  rewrite (bind_ret _ _ _ _ _ (Hc _)). reflexivity.
Qed.

(** X1: a started run with a keyword but without an API key, neither in the
    secrets nor in the environment, shows the error about the key and
    stops; no remote operation is issued. *)
Theorem missing_api_key_stops_without_network (w : world) (f : form) :
  start f = true -> strip (keyword f) <> [] ->
  val_truthy (api_key w) = false ->
  script w f
  = (Stop, {| net := []; ui := sidebar_ui w f ++ [missing_key_error] |}).
Proof.
  intros Hs Hk Hkey. apply script_no_client; [exact Hs | exact Hk |].
  intros tr. apply get_openai_client_no_key, Hkey.
Qed.

Lemma missing_api_key_stops_without_network_witness :
  script no_key request
  = (Stop, {| net := []; ui := sidebar_ui no_key request ++ [missing_key_error] |}).
Proof.
  assert (Hs : start request = true) by reflexivity.
  assert (Hk : strip (keyword request) <> []) by (vm_compute; discriminate).
  assert (Hkey : val_truthy (api_key no_key) = false)
    by (vm_compute; reflexivity).
  exact (missing_api_key_stops_without_network no_key request Hs Hk Hkey).
Defined.

(** X2: when a key is configured but the client cannot be imported or
    built, the run shows the error with the text of the exception and
    stops; no remote operation is issued. *)
Theorem client_failure_stops_without_network (w : world) (f : form) (e : exn) :
  start f = true -> strip (keyword f) <> [] ->
  val_truthy (api_key w) = true -> openai_client w (api_key w) = Some e ->
  script w f
  = (Stop, {| net := []; ui := sidebar_ui w f ++ [client_init_error w e] |}).
Proof.
  intros Hs Hk Hkey He. apply script_no_client; [exact Hs | exact Hk |].
  intros tr. apply get_openai_client_init_error; assumption.
Qed.

Lemma client_failure_stops_without_network_witness :
  script broken_client request
  = (Stop,
     {| net := [];
        ui := sidebar_ui broken_client request
              ++ [client_init_error broken_client
                    (LibraryError (lit "No module named 'openai'"))] |}).
Proof.
  assert (Hs : start request = true) by reflexivity.
  assert (Hk : strip (keyword request) <> []) by (vm_compute; discriminate).
  assert (Hkey : val_truthy (api_key broken_client) = true)
    by (vm_compute; reflexivity).
  assert (He : openai_client broken_client (api_key broken_client)
               = Some (LibraryError (lit "No module named 'openai'")))
    by (vm_compute; reflexivity).
  exact (client_failure_stops_without_network broken_client request _
           Hs Hk Hkey He).
Defined.

(** X3: the key of the secrets takes precedence over the environment
    variable, which is used only when the secret is missing or empty. *)
Theorem api_key_secret_before_environment (w : world) (tr : trace) :
  (val_truthy (secrets_get w "OPENAI_API_KEY" (VStr [])) = true ->
   openai_client w (secrets_get w "OPENAI_API_KEY" (VStr [])) = None ->
   get_openai_client w tr
   = (Ret (Some (secrets_get w "OPENAI_API_KEY" (VStr []))), tr))
  /\ (val_truthy (secrets_get w "OPENAI_API_KEY" (VStr [])) = false ->
      forall key, environ w !! "OPENAI_API_KEY" = Some key -> key <> [] ->
      openai_client w (VStr key) = None ->
      get_openai_client w tr = (Ret (Some (VStr key)), tr)).
Proof.
  split.
  - intros Hs Hc.
    assert (E : api_key w = secrets_get w "OPENAI_API_KEY" (VStr []))
      by (unfold api_key, val_or; rewrite Hs; reflexivity).
    rewrite <- E in *. apply get_openai_client_ready. split; assumption.
  - intros Hs key He Hne Hc.
    assert (E : api_key w = VStr key).
    { unfold api_key, val_or, getenv. rewrite Hs, He. reflexivity. }
    rewrite <- E in *. apply get_openai_client_ready. split; [|exact Hc].
    rewrite E. apply truthy_nonempty, Hne.
Qed.

Lemma api_key_secret_before_environment_witness :
  get_openai_client key_in_environ empty_trace
  = (Ret (Some (VStr (lit "sk-env"))), empty_trace).
Proof.
  assert (Hs : val_truthy (secrets_get key_in_environ "OPENAI_API_KEY" (VStr []))
               = false) by (vm_compute; reflexivity).
  assert (He : environ key_in_environ !! "OPENAI_API_KEY" = Some (lit "sk-env"))
    by (vm_compute; reflexivity).
  assert (Hne : lit "sk-env" <> []) by (vm_compute; discriminate).
  assert (Hc : openai_client key_in_environ (VStr (lit "sk-env")) = None)
    by reflexivity.
  exact (proj2 (api_key_secret_before_environment key_in_environ empty_trace)
           Hs (lit "sk-env") He Hne Hc).
Defined.

(** ** The shapes of a run *)

Lemma script_not_started (w : world) (f : form) :
  start f = false ->
  script w f = (Ret tt, {| net := []; ui := sidebar_ui w f |}).
Proof.
  intros Hs. unfold script.
  rewrite (bind_ret _ _ _ _ _ (sidebar_extend w f empty_trace)).
  unfold run. rewrite Hs. reflexivity.
Qed.

(** Every run has one of four shapes. *)
Lemma script_shapes (w : world) (f : form) :
  (start f = false
   /\ script w f = (Ret tt, {| net := []; ui := sidebar_ui w f |}))
  \/ (~ reaches_first_call w f
      /\ exists m,
           script w f
           = (Stop, {| net := []; ui := sidebar_ui w f ++ [StWarning m] |})
           \/ script w f
              = (Stop, {| net := []; ui := sidebar_ui w f ++ [StError m] |}))
  \/ (reaches_first_call w f /\ first_result w f = []
      /\ script w f
         = (Stop,
            {| net := [NetCompletion (first_call w f)];
               ui := sidebar_ui w f ++ call_errors w (first_reply w f) |}))
  \/ (reaches_first_call w f /\ first_result w f <> []
      /\ exists lnet lui,
           forallb (fun e => negb (is_completion e)) lnet = true
           /\ forallb is_info lui = true
           /\ script w f
              = (Ret tt,
                 {| net := NetCompletion (first_call w f)
                           :: (if needs_fix w f
                               then [NetCompletion (corrective_call w f)]
                               else [])
                           ++ lnet;
                    ui := sidebar_ui w f
                          ++ call_errors w (first_reply w f)
                          ++ (if needs_fix w f
                              then call_errors w (corrective_reply w f)
                              else [])
                          ++ lui
                          ++ [final_status w f;
                              ComponentsHtml (html_escape (final_text w f));
                              StDivider;
                              StMarkdown (final_text w f)] |})).
Proof.
  destruct (start f) eqn:Hs; [|left; split; [reflexivity|]; apply script_not_started, Hs].
  right.
  destruct (strip (keyword f)) as [|k0 kw] eqn:Hk.
  { left. split; [intros (_ & H & _); congruence|].
    eexists. left. apply script_blank_keyword; assumption. }
  assert (Hk' : strip (keyword f) <> []) by (rewrite Hk; discriminate).
  clear Hk.
  destruct (val_truthy (api_key w)) eqn:Hkey.
  2:{ left. split; [intros (_ & _ & H & _); congruence|].
      eexists. right. apply script_no_client; [exact Hs | exact Hk' |].
      intros tr. apply get_openai_client_no_key, Hkey. }
  destruct (openai_client w (api_key w)) as [e|] eqn:He.
  { left. split; [intros (_ & _ & _ & H); congruence|].
    eexists. right. apply script_no_client; [exact Hs | exact Hk' |].
    intros tr. apply get_openai_client_init_error; eassumption. }
  assert (Hr : reaches_first_call w f) by (repeat split; assumption).
  right.
  destruct (first_result w f) as [|c0 r0] eqn:Hf.
  - left. split; [exact Hr|]. split; [reflexivity|].
    apply script_first_empty; assumption.
  - right. split; [exact Hr|]. split; [discriminate|].
    apply script_present; [exact Hr | rewrite Hf; discriminate].
Qed.

Lemma completions_one (c : llm_call) : completions [NetCompletion c] = [c].
Proof. reflexivity. Qed.


(** X5: no remote operation is issued unless the button was pressed, the
    keyword is not blank and a client could be built from a configured
    key. *)
Theorem network_only_after_validation (w : world) (f : form) :
  net (snd (script w f)) <> [] -> reaches_first_call w f.
Proof.
  destruct (script_shapes w f)
    as [[_ E]|[[_ [m [E|E]]]|[(Hr & _)|(Hr & _)]]];
    try exact (fun _ => Hr); rewrite E; cbn [snd net]; congruence.
Qed.

Lemma network_only_after_validation_witness :
  reaches_first_call short_then_fitting request.
Proof.
  assert (H : net (snd (script short_then_fitting request)) <> [])
    by (vm_compute; discriminate).
  exact (network_only_after_validation short_then_fitting request H).
Defined.

(** X6: a run issues at most two completion calls, and the first of them is
    always the call built from the form. *)
Theorem at_most_two_completion_calls (w : world) (f : form) :
  (length (completions (net (snd (script w f)))) <= 2)%nat
  /\ (completions (net (snd (script w f))) = []
      \/ head (completions (net (snd (script w f)))) = Some (first_call w f)).
Proof.
  destruct (script_shapes w f)
    as [[_ E]|[[_ [m [E|E]]]|[(_ & _ & E)|(_ & _ & lnet & lui & Hn & _ & E)]]];
    rewrite E; cbn [snd net].
  - split; [simpl; lia | left; reflexivity].
  - split; [simpl; lia | left; reflexivity].
  - split; [simpl; lia | left; reflexivity].
  - rewrite completions_one. split; [simpl; lia | right; reflexivity].
  - rewrite (completions_present w f lnet Hn).
    destruct (needs_fix w f); split; try (simpl; lia); right; reflexivity.
Qed.

(** X7: a run that stops has logged nothing and presented nothing: its
    remote operations are completion calls only, and neither the text nor
    the copy widget is shown; a started run that ends normally displays
    exactly the final text, last. *)
Theorem stopped_run_logs_and_presents_nothing (w : world) (f : form) :
  (fst (script w f) = Stop ->
   forallb is_completion (net (snd (script w f))) = true
   /\ displayed (ui (snd (script w f))) = []
   /\ forall m, ~ In (ComponentsHtml m) (ui (snd (script w f))))
  /\ (fst (script w f) = Ret tt -> start f = true ->
      displayed (ui (snd (script w f))) = [final_text w f]
      /\ last (ui (snd (script w f))) = Some (StMarkdown (final_text w f))).
Proof.
  assert (Hside : displayed (sidebar_ui w f) = []
                  /\ forall m, ~ In (ComponentsHtml m) (sidebar_ui w f)).
  { unfold sidebar_ui, sidebar, bind, st_info, st_warning, show, ret,
      empty_trace.
    destruct (lang_choice f), (enable_en w), (target_min f >? target_max f);
      cbn [negb snd ui app]; (split; [reflexivity|]); intros m H;
      repeat (destruct H as [H|H]; [discriminate H|]); exact H. }
  assert (Herr : forall r, displayed (call_errors w r) = []
                           /\ forall m, ~ In (ComponentsHtml m) (call_errors w r)).
  { intros r. destruct r as [e|c]; cbn [call_errors];
      (split; [reflexivity|]); intros m H;
      repeat (destruct H as [H|H]; [discriminate H|]); exact H. }
  assert (Hinfo : forall l, forallb is_info l = true -> displayed l = []).
  { induction l as [|e l IH]; [reflexivity|]. simpl. intros H.
    apply andb_true_iff in H as [He Hl]. unfold displayed.
    destruct e; try discriminate He. cbn [omap list_omap]. apply IH, Hl. }
  destruct Hside as [Hs1 Hs2].
  destruct (script_shapes w f)
    as [[Hs E]|[[_ [m [E|E]]]|[(_ & _ & E)|(_ & _ & lnet & lui & _ & Hu & E)]]];
    rewrite E; cbn [fst snd net ui]; (split; [intros Ho | intros Ho Hst]);
    try discriminate Ho; try congruence.
  - split; [reflexivity|]. split.
    + unfold displayed. rewrite omap_app. fold (displayed (sidebar_ui w f)).
      rewrite Hs1. reflexivity.
    + intros m' H. apply in_app_iff in H as [H|[H|[]]];
        [exact (Hs2 m' H) | discriminate H].
  - split; [reflexivity|]. split.
    + unfold displayed. rewrite omap_app. fold (displayed (sidebar_ui w f)).
      rewrite Hs1. reflexivity.
    + intros m' H. apply in_app_iff in H as [H|[H|[]]];
        [exact (Hs2 m' H) | discriminate H].
  - split; [reflexivity|]. split.
    + unfold displayed. rewrite omap_app.
      fold (displayed (sidebar_ui w f)).
      fold (displayed (call_errors w (first_reply w f))).
      rewrite Hs1, (proj1 (Herr _)). reflexivity.
    + intros m' H. apply in_app_iff in H as [H|H];
        [exact (Hs2 m' H) | exact (proj2 (Herr _) m' H)].
  - split.
    + unfold displayed. rewrite !omap_app.
      fold (displayed (sidebar_ui w f)).
      fold (displayed (call_errors w (first_reply w f))).
      fold (displayed lui).
      rewrite Hs1, (proj1 (Herr _)), (Hinfo lui Hu).
      destruct (needs_fix w f).
      * fold (displayed (call_errors w (corrective_reply w f))).
        rewrite (proj1 (Herr _)).
        unfold final_status. destruct (out_of_range _ _ _); reflexivity.
      * unfold final_status. destruct (out_of_range _ _ _); reflexivity.
    + rewrite !app_assoc.
      change [final_status w f; ComponentsHtml (html_escape (final_text w f));
              StDivider; StMarkdown (final_text w f)]
        with ([final_status w f; ComponentsHtml (html_escape (final_text w f));
               StDivider] ++ [StMarkdown (final_text w f)]).
      rewrite app_assoc. apply last_snoc.
Qed.

Lemma stopped_run_logs_and_presents_nothing_witness :
  displayed (ui (snd (script fitting_reply request)))
  = [final_text fitting_reply request]
  /\ last (ui (snd (script fitting_reply request)))
     = Some (StMarkdown (final_text fitting_reply request)).
Proof.
  assert (Ho : fst (script fitting_reply request) = Ret tt)
    by (vm_compute; reflexivity).
  assert (Hs : start request = true) by reflexivity.
  exact (proj2 (stopped_run_logs_and_presents_nothing fitting_reply request)
           Ho Hs).
Defined.

(** ** More on logging *)

Ltac run_log_step :=
  cbn [of_status of_result raise ret fst snd net ui negb];
  match goal with
  | |- context [secrets ?w !! "LOG_SHEET_ID"] =>
    destruct (secrets w !! "LOG_SHEET_ID") eqn:?
  | |- context [negb (val_truthy ?v)] => destruct (val_truthy v) eqn:?
  | |- context [of_status (sa_credentials ?w ?a)] =>
    destruct (sa_credentials w a) eqn:?
  | |- context [of_status (gs_authorize ?w)] =>
    destruct (gs_authorize w) eqn:?
  | |- context [of_status (gs_open_by_key ?w ?a)] =>
    destruct (gs_open_by_key w a) eqn:?
  | |- context [of_status (gs_worksheet ?w ?a)] =>
    destruct (gs_worksheet w a) eqn:?
  | |- context [of_result (zone_now ?w ?a)] =>
    destruct (zone_now w a) as [?|[? ?]] eqn:?
  | |- context [of_result (gs_get_all_values ?w)] =>
    destruct (gs_get_all_values w) eqn:?
  | |- context [of_status (gs_append_row ?w ?a)] =>
    destruct (gs_append_row w a) eqn:?
  end.

Lemma log_to_sheet_frame (w : world) (kw url ct lang : pystr) (chars : Z)
    (model : pyval) (tr : trace) :
  log_to_sheet w kw url ct lang chars model tr
  = (Ret tt,
     extend tr
       (net (snd (log_to_sheet w kw url ct lang chars model empty_trace)))
       (ui (snd (log_to_sheet w kw url ct lang chars model empty_trace)))).
Proof.
  destruct tr as [n0 u0].
  unfold log_to_sheet, try_except, log_to_sheet_body, bind, secrets_item,
    issue, st_info, show, extend, empty_trace.
  repeat run_log_step;
    cbn [of_status of_result raise ret fst snd net ui negb app];
    rewrite ?app_nil_r, <- ?app_assoc; reflexivity.
Qed.

(** X8: when the logging configuration is complete and every step
    succeeds, [log_to_sheet] issues its six operations in order and appends
    one row: the sequence number is the number of rows the sheet holds, the
    other columns are the date, the time and the arguments; the sheet name
    and the time zone default to "logs" and "Europe/Rome"; nothing is
    shown. *)
Theorem log_to_sheet_appends_one_row (w : world) (kw url ct lang : pystr)
    (chars : Z) (model : pyval) (tr : trace)
    (sheet_id : pyval) (d t : pystr) (n : Z) :
  secrets w !! "LOG_SHEET_ID" = Some sheet_id ->
  val_truthy (secrets_get w "gcp_service_account" VNone) = true ->
  sa_credentials w (secrets_get w "gcp_service_account" VNone) = None ->
  gs_authorize w = None ->
  gs_open_by_key w sheet_id = None ->
  gs_worksheet w (secrets_get w "LOG_SHEET_NAME" (VStr (lit "logs"))) = None ->
  zone_now w (secrets_get w "TIMEZONE" (VStr (lit "Europe/Rome"))) = inr (d, t) ->
  gs_get_all_values w = inr n ->
  gs_append_row w (built_row n d t kw url ct lang chars model) = None ->
  log_to_sheet w kw url ct lang chars model tr
  = (Ret tt,
     extend tr
       [NetCredentials (secrets_get w "gcp_service_account" VNone);
        NetAuthorize;
        NetOpenByKey sheet_id;
        NetWorksheet (secrets_get w "LOG_SHEET_NAME" (VStr (lit "logs")));
        NetGetAllValues;
        NetAppendRow (built_row n d t kw url ct lang chars model)]
       []).
Proof.
  intros Hid Hsa Hcred Hauth Hopen Hws Hnow Hall Happ.
  destruct tr as [n0 u0].
  unfold log_to_sheet, try_except, log_to_sheet_body, bind, secrets_item,
    issue, extend.
  rewrite Hid. cbn [ret]. rewrite Hsa. cbn [negb].
  rewrite Hcred. cbn [of_status ret net ui].
  rewrite Hauth. cbn [of_status ret net ui].
  rewrite Hopen. cbn [of_status ret net ui].
  rewrite Hws. cbn [of_status ret net ui].
  rewrite Hnow. cbn [of_result ret net ui fst snd].
  rewrite Hall. cbn [of_result ret net ui].
  rewrite !str_or_nil. fold (built_row n d t kw url ct lang chars model).
  rewrite Happ. cbn [of_status ret net ui].
  rewrite app_nil_r, <- !app_assoc. reflexivity.
Qed.

Lemma log_to_sheet_appends_one_row_witness :
  log_to_sheet logging_up (lit "frigoriferi") [] (lit "Listing")
    (lit "Italiano") 521 (VStr (lit "gpt-4o-mini")) empty_trace
  = (Ret tt,
     extend empty_trace
       [NetCredentials (secrets_get logging_up "gcp_service_account" VNone);
        NetAuthorize;
        NetOpenByKey (VStr (lit "sheet-1"));
        NetWorksheet (secrets_get logging_up "LOG_SHEET_NAME" (VStr (lit "logs")));
        NetGetAllValues;
        NetAppendRow (built_row 1 (lit "2025-09-01") (lit "10:30:00")
                        (lit "frigoriferi") [] (lit "Listing") (lit "Italiano")
                        521 (VStr (lit "gpt-4o-mini")))]
       []).
Proof.
  assert (Hid : secrets logging_up !! "LOG_SHEET_ID" = Some (VStr (lit "sheet-1")))
    by (vm_compute; reflexivity).
  assert (Hsa : val_truthy (secrets_get logging_up "gcp_service_account" VNone)
                = true) by (vm_compute; reflexivity).
  exact (log_to_sheet_appends_one_row logging_up (lit "frigoriferi") []
           (lit "Listing") (lit "Italiano") 521 (VStr (lit "gpt-4o-mini"))
           empty_trace (VStr (lit "sheet-1")) (lit "2025-09-01")
           (lit "10:30:00") 1 Hid Hsa eq_refl eq_refl eq_refl eq_refl
           eq_refl eq_refl eq_refl).
Defined.

Lemma log_to_sheet_effects (w : world) (kw url ct lang : pystr) (chars : Z)
    (model : pyval) :
  let lnet := net (snd (log_to_sheet w kw url ct lang chars model empty_trace)) in
  let lui := ui (snd (log_to_sheet w kw url ct lang chars model empty_trace)) in
  forallb (fun e => negb (is_completion e)) lnet = true
  /\ (appended lnet = []
      \/ exists n d t,
           appended lnet = [built_row n d t kw url ct lang chars model]
           /\ last lnet
              = Some (NetAppendRow (built_row n d t kw url ct lang chars model))
           /\ gs_get_all_values w = inr n)
  /\ (lui = [] \/ exists e, lui = [StInfo (log_failed w e)])
  /\ (lui = [] -> appended lnet = [] -> lnet = []).
Proof.
  cbv zeta.
  unfold log_to_sheet, try_except, log_to_sheet_body, bind, secrets_item,
    issue, st_info, show, empty_trace.
  repeat run_log_step;
    cbn [of_status of_result raise ret fst snd net ui negb app];
    rewrite ?str_or_nil;
    (split; [reflexivity|]);
    (split; [first [ left; reflexivity
                   | right; do 3 eexists;
                     split; [reflexivity|]; split; reflexivity ]|]);
    (split; [first [ left; reflexivity | right; eexists; reflexivity ]|]);
    intros H1 H2; first [reflexivity | discriminate H1 | discriminate H2].
Qed.

(** X9: whatever happens, [log_to_sheet] returns normally and issues no
    completion call.  It issues an append at most once, as its last
    operation, with the row built from its arguments and the current row
    count; it shows at most one notice, which carries the text of the
    exception; and when it neither appends nor shows a notice it has issued
    no operation at all. *)
Theorem log_to_sheet_appends_at_most_once (w : world)
    (kw url ct lang : pystr) (chars : Z) (model : pyval) (tr : trace) :
  exists lnet lui,
    log_to_sheet w kw url ct lang chars model tr = (Ret tt, extend tr lnet lui)
    /\ forallb (fun e => negb (is_completion e)) lnet = true
    /\ (appended lnet = []
        \/ exists n d t,
             appended lnet = [built_row n d t kw url ct lang chars model]
             /\ last lnet
                = Some (NetAppendRow (built_row n d t kw url ct lang chars model))
             /\ gs_get_all_values w = inr n)
    /\ (lui = [] \/ exists e, lui = [StInfo (log_failed w e)])
    /\ (lui = [] -> appended lnet = [] -> lnet = []).
Proof.
  exists (net (snd (log_to_sheet w kw url ct lang chars model empty_trace))),
         (ui (snd (log_to_sheet w kw url ct lang chars model empty_trace))).
  split; [apply log_to_sheet_frame|].
  apply log_to_sheet_effects.
Qed.

Lemma log_to_sheet_appends_at_most_once_witness :
  exists lnet lui,
    log_to_sheet logging_down (lit "frigoriferi") [] (lit "Listing")
      (lit "Italiano") 521 (VStr (lit "gpt-4o-mini")) empty_trace
    = (Ret tt, extend empty_trace lnet lui)
    /\ (lui = [] \/ exists e, lui = [StInfo (log_failed logging_down e)]).
Proof.
  destruct (log_to_sheet_appends_at_most_once logging_down
              (lit "frigoriferi") [] (lit "Listing") (lit "Italiano") 521
              (VStr (lit "gpt-4o-mini")) empty_trace)
    as (lnet & lui & E & _ & _ & Hu & _).
  exists lnet, lui. exact (conj E Hu).
Defined.

Lemma script_present_logged (w : world) (f : form) :
  reaches_first_call w f -> first_result w f <> [] ->
  let logged :=
    snd (log_to_sheet w (keyword f) (url f)
           (content_type_str (content_type f)) (language_str (language w f))
           (char_count (final_text w f)) (MODEL_DEFAULT w) empty_trace) in
  script w f
  = (Ret tt,
     {| net := NetCompletion (first_call w f)
               :: (if needs_fix w f
                   then [NetCompletion (corrective_call w f)] else [])
               ++ net logged;
        ui := sidebar_ui w f
              ++ call_errors w (first_reply w f)
              ++ (if needs_fix w f
                  then call_errors w (corrective_reply w f) else [])
              ++ ui logged
              ++ [final_status w f;
                  ComponentsHtml (html_escape (final_text w f));
                  StDivider;
                  StMarkdown (final_text w f)] |}).
Proof.
  intros (Hs & Hk & Hc) Hne logged. unfold script.
  rewrite (bind_ret _ _ _ _ _ (sidebar_extend w f empty_trace)).
  unfold run. rewrite Hs, (truthy_nonempty _ Hk). cbn [negb].
  destruct (provider f).
  rewrite (bind_ret _ _ _ _ _ (get_openai_client_ready w _ Hc)).
  pose proof (call_openai_extend w (api_key w) (MODEL_DEFAULT w)
                (system_prompt_of f) (user_prompt_of w f) (temperature f)
                1000 (extend empty_trace [] (sidebar_ui w f))) as H1.
  cbv zeta in H1. cbn [extend net empty_trace app] in H1.
  fold (first_call w f) in H1. fold (first_reply w f) in H1.
  fold (first_result w f) in H1.
  rewrite (bind_ret _ _ _ _ _ H1). clear H1.
  rewrite (truthy_nonempty _ Hne). cbn [negb].
  fold (needs_fix w f).
  assert (Hcall :
    (if needs_fix w f
     then call_openai w (api_key w) (MODEL_DEFAULT w) (system_prompt_of f)
            (first_result w f ++ [LF; LF] ++ fix_prompt f) (temperature f) 1000
     else ret (first_result w f))
      {| net := [NetCompletion (first_call w f)];
         ui := (ui empty_trace ++ sidebar_ui w f)
               ++ call_errors w (first_reply w f) |}
    = (Ret (strip (raw_output (last_reply w f))),
       {| net := NetCompletion (first_call w f)
                 :: (if needs_fix w f
                     then [NetCompletion (corrective_call w f)] else []);
          ui := sidebar_ui w f
                ++ call_errors w (first_reply w f)
                ++ (if needs_fix w f
                    then call_errors w (corrective_reply w f) else []) |})).
  { unfold last_reply. destruct (needs_fix w f).
    - rewrite call_openai_extend. cbv zeta.
      unfold extend, corrective_reply, corrective_call. cbn [net ui empty_trace].
      rewrite <- ?app_assoc. reflexivity.
    - unfold ret. cbn [ui empty_trace]. rewrite app_nil_r. reflexivity. }
  unfold extend at 1. cbn [net ui].
  rewrite (bind_ret _ _ _ _ _ Hcall). clear Hcall.
  rewrite str_or_nil, strip_idem. fold (final_text w f).
  match goal with
  | |- context [bind (try_except _ _) _ ?t] =>
    assert (Et : try_except
                   (log_to_sheet w (keyword f) (url f)
                      (content_type_str (content_type f))
                      (language_str (language w f))
                      (char_count (final_text w f)) (MODEL_DEFAULT w))
                   (fun e => st_info (log_failed w e)) t
                 = (Ret tt, extend t (net logged) (ui logged)))
      by (unfold try_except; rewrite log_to_sheet_frame; reflexivity)
  end.
  rewrite (bind_ret _ _ _ _ _ Et). clear Et.
  fold (final_status w f).
  assert (Es : forall t,
    (if out_of_range (char_count (final_text w f)) (target_min f) (target_max f)
     then st_warning (chars_warning (char_count (final_text w f))
                        (target_min f) (target_max f))
     else st_success (chars_success (char_count (final_text w f))
                        (target_min f) (target_max f))) t
    = (Ret tt, extend t [] [final_status w f])).
  { intros t. unfold final_status.
    destruct (out_of_range _ _ _); apply show_extend. }
  rewrite (bind_ret _ _ _ _ _ (Es _)).
  rewrite (bind_ret _ _ _ _ _ (show_extend _ _)).
  rewrite (bind_ret _ _ _ _ _ (show_extend _ _)).
  rewrite show_extend. unfold extend. cbn [net ui].
  rewrite ?app_nil_r, <- ?app_assoc. reflexivity.
Qed.

Lemma appended_app (a b : list net_event) :
  appended (a ++ b) = appended a ++ appended b.
Proof. apply omap_app. Qed.

(** X10: a run issues at most one append, and the row it appends carries
    what the page presents: the count is the length of the final text, the
    other columns are the keyword, the URL, the content type, the language
    and the model of the run.  Such a run ends normally. *)
Theorem logged_row_matches_presentation (w : world) (f : form) :
  (length (appended (net (snd (script w f)))) <= 1)%nat
  /\ forall r, In r (appended (net (snd (script w f)))) ->
       row_chars r = len (final_text w f)
       /\ row_keyword r = keyword f
       /\ row_url r = url f
       /\ row_ctype r = content_type_str (content_type f)
       /\ row_language r = language_str (language w f)
       /\ row_model r = val_or (MODEL_DEFAULT w) (VStr [])
       /\ fst (script w f) = Ret tt.
Proof.
  destruct (script_shapes w f)
    as [[_ E]|[[_ [m [E|E]]]|[(_ & _ & E)|(Hr & Hne & _)]]];
    try (rewrite E; cbn [snd net]; split; [simpl; lia | intros r []]).
  rewrite (script_present_logged w f Hr Hne). cbn [fst snd net].
  destruct (log_to_sheet_effects w (keyword f) (url f)
              (content_type_str (content_type f)) (language_str (language w f))
              (char_count (final_text w f)) (MODEL_DEFAULT w))
    as (_ & Happ & _).
  cbv zeta in Happ.
  change (NetCompletion (first_call w f)
          :: (if needs_fix w f then [NetCompletion (corrective_call w f)] else [])
          ++ ?l)
    with ((NetCompletion (first_call w f)
           :: (if needs_fix w f then [NetCompletion (corrective_call w f)] else []))
          ++ l).
  rewrite appended_app.
  assert (E0 : appended
                 (NetCompletion (first_call w f)
                  :: (if needs_fix w f
                      then [NetCompletion (corrective_call w f)] else []))
               = [])
    by (destruct (needs_fix w f); reflexivity).
  rewrite E0. cbn [app].
  destruct Happ as [Happ|(n & d & t & Happ & _)]; rewrite Happ.
  - split; [simpl; lia | intros r []].
  - split; [simpl; lia|]. intros r [<-|[]]. repeat split; reflexivity.
Qed.

Lemma logged_row_matches_presentation_witness :
  row_chars (built_row 1 (lit "2025-09-01") (lit "10:30:00")
               (keyword request) (url request)
               (content_type_str (content_type request))
               (language_str (language logging_up request))
               (char_count (final_text logging_up request))
               (MODEL_DEFAULT logging_up))
  = len (final_text logging_up request).
Proof.
  assert (Hin : In (built_row 1 (lit "2025-09-01") (lit "10:30:00")
                      (keyword request) (url request)
                      (content_type_str (content_type request))
                      (language_str (language logging_up request))
                      (char_count (final_text logging_up request))
                      (MODEL_DEFAULT logging_up))
                   (appended (net (snd (script logging_up request)))))
    by (vm_compute; left; reflexivity).
  exact (proj1 (proj2 (logged_row_matches_presentation logging_up request)
                  _ Hin)).
Defined.

(** ** More on the completion calls *)

Lemma last_rev_head {A} (l : list A) : last (rev l) = head l.
Proof. destruct l as [|a l]; [reflexivity|]. simpl. apply last_snoc. Qed.

Lemma strip_last (s : pystr) (c : char) :
  last (strip s) = Some c -> py_isspace c = false.
Proof.
  unfold strip, rstrip. rewrite last_rev_head. apply lstrip_head.
Qed.

(** X11: [call_openai] never raises: it issues exactly one completion
    request and returns the stripped content of the reply, or the empty
    string with an error message when the request raised; the text it
    returns neither starts nor ends with whitespace. *)
Theorem call_openai_returns_stripped_text (w : world) (client model : pyval)
    (sys usr : pystr) (temp : Q) (maxt : Z) (tr : trace) :
  exists text shown,
    call_openai w client model sys usr temp maxt tr
    = (Ret text,
       {| net := net tr
                 ++ [NetCompletion
                       {| call_model := model; call_system := sys;
                          call_user := usr; call_temperature := temp;
                          call_max_tokens := maxt |}];
          ui := ui tr ++ shown |})
    /\ match completion w (net tr)
               {| call_model := model; call_system := sys; call_user := usr;
                  call_temperature := temp; call_max_tokens := maxt |} with
       | inl e =>
         text = []
         /\ shown = [StError (lit "Errore chiamando il modello: "
                              ++ str_of_exn w e)]
       | inr content => text = strip (default [] content) /\ shown = []
       end
    /\ (forall c, head text = Some c -> py_isspace c = false)
    /\ (forall c, last text = Some c -> py_isspace c = false).
Proof.
  eexists _, _. split; [apply call_openai_extend|]. cbv zeta.
  split.
  - destruct (completion w (net tr) _) as [e|[c|]]; split; reflexivity.
  - split; intros c; [apply strip_head | apply strip_last].
Qed.

Lemma call_openai_returns_stripped_text_witness :
  exists text,
    fst (call_openai fitting_reply (VStr (lit "sk-test"))
           (VStr (lit "gpt-4o-mini")) (lit "sistema") (lit "utente")
           (4 # 10) 1000 empty_trace) = Ret text
    /\ (forall c, head text = Some c -> py_isspace c = false).
Proof.
  destruct (call_openai_returns_stripped_text fitting_reply
              (VStr (lit "sk-test")) (VStr (lit "gpt-4o-mini"))
              (lit "sistema") (lit "utente") (4 # 10) 1000 empty_trace)
    as (text & shown & E & _ & Hh & _).
  exists text. rewrite E. exact (conj eq_refl Hh).
Defined.

(** X12: when the first reply carries no content or only whitespace, the
    run stops after the first call without showing any message. *)
Theorem blank_first_reply_stops_silently (w : world) (f : form)
    (content : option pystr) :
  reaches_first_call w f ->
  first_reply w f = inr content ->
  forallb py_isspace (default [] content) = true ->
  script w f
  = (Stop,
     {| net := [NetCompletion (first_call w f)]; ui := sidebar_ui w f |}).
Proof.
  intros Hr Hrep Hblank.
  assert (He : first_result w f = []).
  { unfold first_result. rewrite Hrep.
    destruct content as [c|]; [apply strip_all_space, Hblank | reflexivity]. }
  rewrite (script_first_empty w f Hr He), Hrep. cbn [call_errors].
  rewrite app_nil_r. reflexivity.
Qed.

Lemma blank_first_reply_stops_silently_witness :
  script blank_reply request
  = (Stop,
     {| net := [NetCompletion (first_call blank_reply request)];
        ui := sidebar_ui blank_reply request |}).
Proof.
  assert (Hr : reaches_first_call blank_reply request).
  { unfold reaches_first_call, client_ready.
    split; [|split; [|split]]; vm_compute; try reflexivity; discriminate. }
  assert (Hrep : first_reply blank_reply request = inr (Some (lit "   ")))
    by (vm_compute; reflexivity).
  assert (Hb : forallb py_isspace (default [] (Some (lit "   "))) = true)
    by (vm_compute; reflexivity).
  exact (blank_first_reply_stops_silently blank_reply request _ Hr Hrep Hb).
Defined.

(** X13: a first result whose count lies inside the window is presented as
    it is: no corrective call is made, the final text is that result and
    the status is the success message with its length. *)
Theorem fitting_first_result_presented_unchanged (w : world) (f : form) :
  reaches_first_call w f -> first_result w f <> [] ->
  in_window f (char_count (first_result w f)) ->
  completions (net (snd (script w f))) = [first_call w f]
  /\ final_text w f = first_result w f
  /\ final_status w f
     = StSuccess (chars_success (len (first_result w f))
                    (target_min f) (target_max f))
  /\ last (ui (snd (script w f))) = Some (StMarkdown (first_result w f)).
Proof.
  intros Hr Hne Hin.
  assert (Hfix : needs_fix w f = false) by (apply needs_fix_in_window, Hin).
  assert (Hfinal : final_text w f = first_result w f).
  { unfold final_text, last_reply. rewrite Hfix.
    fold (first_result w f). apply enforce_length_short.
    destruct Hin as [_ H]. exact H. }
  destruct (script_present w f Hr Hne) as (lnet & lui & Hn & _ & E).
  rewrite E. cbn [snd net ui]. rewrite (completions_present w f lnet Hn), Hfix.
  split; [reflexivity|]. split; [exact Hfinal|]. split.
  - unfold final_status. rewrite Hfinal. fold (needs_fix w f).
    rewrite Hfix. reflexivity.
  - rewrite Hfinal, !app_assoc.
    change [final_status w f; ComponentsHtml (html_escape (first_result w f));
            StDivider; StMarkdown (first_result w f)]
      with ([final_status w f; ComponentsHtml (html_escape (first_result w f));
             StDivider] ++ [StMarkdown (first_result w f)]).
    rewrite app_assoc. apply last_snoc.
Qed.

Lemma fitting_first_result_presented_unchanged_witness :
  final_text fitting_reply request = first_result fitting_reply request.
Proof.
  assert (Hr : reaches_first_call fitting_reply request).
  { unfold reaches_first_call, client_ready.
    split; [|split; [|split]]; vm_compute; try reflexivity; discriminate. }
  assert (Hne : first_result fitting_reply request <> [])
    by (vm_compute; discriminate).
  assert (Hin : in_window request
                  (char_count (first_result fitting_reply request)))
    by (vm_compute; split; discriminate).
  exact (proj1 (proj2 (fitting_first_result_presented_unchanged
                         fitting_reply request Hr Hne Hin))).
Defined.

(** X14: when the minimum exceeds the maximum, which the form only warns
    about, no count is inside the window: every run with a non-empty first
    result makes the corrective call and ends with the warning status. *)
Theorem inverted_bounds_always_correct_and_warn (w : world) (f : form) :
  target_max f < target_min f ->
  In bounds_warning (sidebar_ui w f)
  /\ (reaches_first_call w f -> first_result w f <> [] ->
      completions (net (snd (script w f)))
      = [first_call w f; corrective_call w f]
      /\ final_status w f
         = StWarning (chars_warning (len (final_text w f))
                        (target_min f) (target_max f))).
Proof.
  intros Hinv.
  assert (Hout : forall cc, out_of_range cc (target_min f) (target_max f) = true).
  { intros cc. unfold out_of_range. apply orb_true_iff.
    destruct (Z_lt_ge_dec cc (target_min f)) as [H|H];
      [left; apply Z.ltb_lt; exact H | right; apply Z.gtb_gt; lia]. }
  split.
  - unfold sidebar_ui, sidebar, bind, st_info, st_warning, show, ret,
      empty_trace, bounds_warning.
    assert (Hgt : (target_min f >? target_max f) = true)
      by (apply Z.gtb_gt; lia).
    rewrite Hgt.
    destruct (lang_choice f), (enable_en w); cbn [negb snd ui app];
      auto using in_eq, in_cons.
  - intros Hr Hne.
    destruct (script_present w f Hr Hne) as (lnet & lui & Hn & _ & E).
    rewrite E. cbn [snd net]. rewrite (completions_present w f lnet Hn).
    unfold needs_fix, final_status. rewrite !Hout. split; reflexivity.
Qed.

Lemma inverted_bounds_always_correct_and_warn_witness :
  In bounds_warning (sidebar_ui short_then_fitting inverted_request).
Proof.
  assert (Hinv : target_max inverted_request < target_min inverted_request)
    by (vm_compute; reflexivity).
  exact (proj1 (inverted_bounds_always_correct_and_warn
                  short_then_fitting inverted_request Hinv)).
Defined.

(** ** The sidebar *)

Lemma sidebar_ui_shown (w : world) (f : form) (e : ui_event) :
  In e (sidebar_ui w f) -> In e (ui (snd (script w f))).
Proof.
  intros H.
  destruct (script_shapes w f)
    as [[_ E]|[[_ [m [E|E]]]|[(_ & _ & E)|(_ & _ & lnet & lui & _ & _ & E)]]];
    rewrite E; cbn [snd ui]; try exact H; apply in_app_iff; left; exact H.
Qed.

(** X15: English is used only when it is chosen and the feature flag is
    on; with the flag off the language of the run is Italian whatever is
    chosen, and choosing English shows the notice about the advanced
    package. *)
Theorem english_needs_feature_flag (w : world) (f : form) :
  (language w f = English <->
   lang_choice f = ChoiceEnglish
   /\ val_truthy (secrets_get w "ENABLE_ENGLISH" (VBool false)) = true)
  /\ (secrets w !! "ENABLE_ENGLISH" = None -> language w f = Italiano)
  /\ (lang_choice f = ChoiceEnglish -> language w f = Italiano ->
      In english_locked_notice (ui (snd (script w f)))).
Proof.
  unfold language. fold (enable_en w).
  split; [|split].
  - unfold enable_en. destruct (lang_choice f), (val_truthy _);
      split; try discriminate; try tauto; intros [H1 H2]; discriminate.
  - intros Hn. unfold enable_en, secrets_get. rewrite Hn. cbn [default val_truthy].
    destruct (lang_choice f); reflexivity.
  - intros Hc Hl. apply sidebar_ui_shown.
    unfold sidebar_ui, sidebar, bind, st_info, st_warning, show, ret,
      empty_trace, english_locked_notice.
    rewrite Hc in *. destruct (enable_en w); [discriminate Hl|].
    destruct (target_min f >? target_max f); cbn [negb snd ui app];
      auto using in_eq, in_cons.
Qed.

Lemma english_needs_feature_flag_witness :
  In english_locked_notice (ui (snd (script fitting_reply english_request))).
Proof.
  assert (Hc : lang_choice english_request = ChoiceEnglish) by reflexivity.
  assert (Hl : language fitting_reply english_request = Italiano)
    by (vm_compute; reflexivity).
  exact (proj2 (proj2 (english_needs_feature_flag fitting_reply english_request))
           Hc Hl).
Defined.

(** X16: the target count lies between the two bounds, in whichever order
    they were entered. *)
Theorem target_chars_between_bounds (f : form) :
  Z.min (target_min f) (target_max f) <= target_chars f
  <= Z.max (target_min f) (target_max f).
Proof.
  unfold target_chars. rewrite target_chars_of_quot.
  Z.to_euclidean_division_equations. lia.
Qed.

(** ** More on [enforce_length] *)

Lemma enforce_length_cases (text : pystr) (min_c max_c : Z) :
  enforce_length text min_c max_c = text
  \/ enforce_length text min_c max_c
     = match slice_to text max_c with
       | c :: t =>
         match upto_last_terminator t with
         | Some p => c :: p
         | None => c :: t
         end
       | [] => []
       end.
Proof.
  unfold enforce_length. destruct (len text <=? max_c); [left; reflexivity|].
  right. destruct (slice_to text max_c) as [|c t]; [reflexivity|].
  rewrite search_sentence. destruct (upto_last_terminator t); reflexivity.
Qed.

Lemma slice_to_prefix (text : pystr) (n : Z) :
  exists rest, text = slice_to text n ++ rest.
Proof.
  unfold slice_to. destruct (0 <=? n);
    eexists; symmetry; apply take_drop.
Qed.

(** X17: the result of [enforce_length] is always a prefix of the text: the
    function only cuts, whatever the bounds. *)
Theorem enforce_length_is_prefix (text : pystr) (min_c max_c : Z) :
  exists rest, text = enforce_length text min_c max_c ++ rest.
Proof.
  destruct (enforce_length_cases text min_c max_c) as [E|E]; rewrite E.
  - exists []. rewrite app_nil_r. reflexivity.
  - destruct (slice_to_prefix text max_c) as [rest Hrest].
    destruct (slice_to text max_c) as [|c t]; [exists text; reflexivity|].
    destruct (upto_last_terminator t) as [p|] eqn:Hp.
    + apply upto_is_prefix in Hp as (x & d & r & -> & -> & _ & _).
      exists (r ++ rest). rewrite Hrest. simpl.
      rewrite <- !app_assoc. reflexivity.
    + exists rest. exact Hrest.
Qed.

(** X18: for a bound that is not negative, [enforce_length] is idempotent:
    a text it returned is returned unchanged. *)
Theorem enforce_length_idempotent (text : pystr) (min_c max_c : Z) :
  0 <= max_c ->
  enforce_length (enforce_length text min_c max_c) min_c max_c
  = enforce_length text min_c max_c.
Proof.
  intros H0. apply enforce_length_short, enforce_length_bound, H0.
Qed.

Lemma enforce_length_idempotent_witness :
  enforce_length (enforce_length (lit "Uno. Due! Tre") 1 12) 1 12
  = enforce_length (lit "Uno. Due! Tre") 1 12.
Proof.
  assert (H0 : 0 <= 12) by lia.
  exact (enforce_length_idempotent (lit "Uno. Due! Tre") 1 12 H0).
Defined.

(** X19: for a bound of at least one character, [enforce_length] keeps the
    first character: a text that is not empty is never cut down to the
    empty text. *)
Theorem enforce_length_keeps_first_character (text : pystr) (min_c max_c : Z) :
  1 <= max_c ->
  head (enforce_length text min_c max_c) = head text.
Proof.
  intros H1. destruct (Z_le_gt_dec (len text) max_c) as [Hle|Hgt].
  - rewrite enforce_length_short by exact Hle. reflexivity.
  - rewrite enforce_length_long by lia.
    unfold first_chars.
    destruct text as [|c text]; [unfold len in Hgt; simpl in Hgt; lia|].
    destruct (Z.to_nat max_c) as [|k] eqn:Hk; [lia|].
    cbn [take]. destruct (upto_last_terminator (take k text)); reflexivity.
Qed.

Lemma enforce_length_keeps_first_character_witness :
  head (enforce_length (lit "Uno. Due! Tre") 1 12) = head (lit "Uno. Due! Tre").
Proof.
  assert (H1 : 1 <= 12) by lia.
  exact (enforce_length_keeps_first_character (lit "Uno. Due! Tre") 1 12 H1).
Defined.

(** X20: for a text longer than a bound that is not negative, the cut is
    the hard one exactly when no terminator follows the first character of
    the prefix; otherwise the result ends in a terminator and is at least
    two characters long. *)
Theorem enforce_length_hard_or_soft_cut (text : pystr) (min_c max_c : Z) :
  0 <= max_c -> max_c < len text ->
  (has_terminator (drop 1 (first_chars max_c text)) = false ->
   enforce_length text min_c max_c = first_chars max_c text
   /\ len (enforce_length text min_c max_c) = max_c)
  /\ (has_terminator (drop 1 (first_chars max_c text)) = true ->
      2 <= len (enforce_length text min_c max_c)
      /\ exists c, last (enforce_length text min_c max_c) = Some c
                   /\ is_terminator c = true).
Proof.
  intros H0 Hlt. rewrite enforce_length_long by assumption.
  pose proof (len_first_chars text max_c H0 ltac:(lia)) as Hlen.
  destruct (first_chars max_c text) as [|c t]; cbn [drop]; rewrite ?drop_0.
  - split; [intros _; split; [reflexivity | exact Hlen] | discriminate].
  - split.
    + intros Hno. apply upto_none_has in Hno. rewrite Hno.
      split; [reflexivity | exact Hlen].
    + intros Hyes. destruct (upto_last_terminator t) as [p|] eqn:Hp.
      * apply upto_is_prefix in Hp as (x & d & r & -> & -> & Hd & _).
        split.
        -- unfold len. simpl. rewrite length_app. simpl. lia.
        -- exists d. split; [|exact Hd].
           change (c :: x ++ [d]) with ((c :: x) ++ [d]). apply last_snoc.
      * apply upto_none_has in Hp. congruence.
Qed.

Lemma enforce_length_hard_or_soft_cut_witness :
  2 <= len (enforce_length (lit "Uno. Due! Tre") 1 12)
  /\ exists c, last (enforce_length (lit "Uno. Due! Tre") 1 12) = Some c
               /\ is_terminator c = true.
Proof.
  assert (H0 : 0 <= 12) by lia.
  assert (Hlt : 12 < len (lit "Uno. Due! Tre")) by (vm_compute; reflexivity).
  assert (Hyes : has_terminator (drop 1 (first_chars 12 (lit "Uno. Due! Tre")))
                 = true) by (vm_compute; reflexivity).
  exact (proj2 (enforce_length_hard_or_soft_cut (lit "Uno. Due! Tre") 1 12
                  H0 Hlt) Hyes).
Defined.

(** ** [html.escape] *)

Lemma html_escape_cons (c : char) (s : pystr) :
  html_escape (c :: s)
  = (if (c =? 38)%N then lit "&amp;"
     else if (c =? 60)%N then lit "&lt;"
     else if (c =? 62)%N then lit "&gt;"
     else if (c =? 34)%N then lit "&quot;"
     else if (c =? 39)%N then lit "&#x27;"
     else [c]) ++ html_escape s.
Proof. reflexivity. Qed.

(** X21: the escaped text holds none of the characters [<], [>], the double
    quote and the apostrophe, so that it cannot close the textarea of the
    copy widget or open a tag. *)
Theorem html_escape_no_markup (s : pystr) :
  forallb (fun c => negb (is_markup_char c)) (html_escape s) = true.
Proof.
  induction s as [|c s IH]; [reflexivity|].
  rewrite html_escape_cons, forallb_app.
  apply andb_true_iff. split; [|exact IH].
  destruct (N.eqb_spec c 38); [vm_compute; reflexivity|].
  destruct (N.eqb_spec c 60); [vm_compute; reflexivity|].
  destruct (N.eqb_spec c 62); [vm_compute; reflexivity|].
  destruct (N.eqb_spec c 34); [vm_compute; reflexivity|].
  destruct (N.eqb_spec c 39); [vm_compute; reflexivity|].
  cbn [forallb]. unfold is_markup_char.
  repeat match goal with
         | H : ?a <> ?b |- _ => apply N.eqb_neq in H; rewrite H; clear H
         end.
  reflexivity.
Qed.

Lemma html_unescape_amp (r : pystr) :
  html_unescape_go 0 (lit "&amp;" ++ r) = 38%N :: html_unescape_go 0 r.
Proof. vm_compute. reflexivity. Qed.

Lemma html_unescape_lt (r : pystr) :
  html_unescape_go 0 (lit "&lt;" ++ r) = 60%N :: html_unescape_go 0 r.
Proof. vm_compute. reflexivity. Qed.

Lemma html_unescape_gt (r : pystr) :
  html_unescape_go 0 (lit "&gt;" ++ r) = 62%N :: html_unescape_go 0 r.
Proof. vm_compute. reflexivity. Qed.

Lemma html_unescape_quot (r : pystr) :
  html_unescape_go 0 (lit "&quot;" ++ r) = 34%N :: html_unescape_go 0 r.
Proof. vm_compute. reflexivity. Qed.

Lemma html_unescape_apos (r : pystr) :
  html_unescape_go 0 (lit "&#x27;" ++ r) = 39%N :: html_unescape_go 0 r.
Proof. vm_compute. reflexivity. Qed.

Lemma html_unescape_escape (s : pystr) : html_unescape (html_escape s) = s.
Proof.
  unfold html_unescape. induction s as [|c s IH]; [reflexivity|].
  rewrite html_escape_cons.
  destruct (N.eqb_spec c 38) as [->|H38];
    [rewrite html_unescape_amp, IH; reflexivity|].
  destruct (N.eqb_spec c 60) as [->|_];
    [rewrite html_unescape_lt, IH; reflexivity|].
  destruct (N.eqb_spec c 62) as [->|_];
    [rewrite html_unescape_gt, IH; reflexivity|].
  destruct (N.eqb_spec c 34) as [->|_];
    [rewrite html_unescape_quot, IH; reflexivity|].
  destruct (N.eqb_spec c 39) as [->|_];
    [rewrite html_unescape_apos, IH; reflexivity|].
  cbn [app html_unescape_go]. apply N.eqb_neq in H38. rewrite H38, IH.
  reflexivity.
Qed.

(** X22: escaping loses nothing: decoding the five character references of
    the escaped text gives the text back, so that two texts with the same
    escaped form are equal and the copy widget holds exactly the final
    text. *)
Theorem html_escape_round_trip (s t : pystr) :
  html_unescape (html_escape s) = s
  /\ (html_escape s = html_escape t -> s = t).
Proof.
  split; [apply html_unescape_escape|].
  intros H. rewrite <- (html_unescape_escape s), <- (html_unescape_escape t), H.
  reflexivity.
Qed.

Lemma html_escape_round_trip_witness :
  html_unescape (html_escape (lit "Forni & piani <Smeg>"))
  = lit "Forni & piani <Smeg>"
  /\ lit "Forni & piani <Smeg>" = lit "Forni & piani <Smeg>".
Proof.
  pose proof (html_escape_round_trip (lit "Forni & piani <Smeg>")
                (lit "Forni & piani <Smeg>")) as [H1 H2].
  exact (conj H1 (H2 eq_refl)).
Defined.

(** ** More on [clean_domain] *)

Lemma take_netloc_no_delimiter (s : pystr) :
  forallb (fun c => negb (Urllib.is_netloc_delim c)) (Urllib.take_netloc s)
  = true.
Proof.
  induction s as [|c s IH]; [reflexivity|]. cbn [Urllib.take_netloc].
  destruct (Urllib.is_netloc_delim c) eqn:E; [reflexivity|].
  cbn [forallb]. rewrite E, IH. reflexivity.
Qed.

(** X23: the domain returned by [clean_domain] never holds a slash, a
    question mark or a hash: nothing of the path, the query or the fragment
    of the URL reaches the prompt as part of the domain. *)
Theorem clean_domain_without_path (w : world) (url : pystr) :
  forallb (fun c => negb (Urllib.is_netloc_delim c)) (clean_domain w url)
  = true.
Proof.
  unfold clean_domain, Urllib.urlparse_netloc. cbv zeta.
  repeat match goal with
         | |- context [if ?b then _ else _] => destruct b
         end; try reflexivity.
  apply replace_go_erase_forallb, take_netloc_no_delimiter.
Qed.
